(** * speedtest_equivalent.py: a shallow embedding and its properties

    The script drives the speedtest library (construct a client, pick a
    server, download, upload), builds one results dictionary out of what
    the library reports, prints it and, on request, appends it to a JSON
    log file.  Everything the script does is sequential Python with
    exceptions, prints, library calls and one file: it is embedded here as
    a state-and-exception monad over an event log and a file system.

    Conventions.
    - Python floats are IEEE 754 binary64 numbers ([float], the primitive
      floats): [/ 1_000_000] is the binary64 division, rounding to nearest
      with ties to even, and [format(x, ".2f")] shows the exact value of
      the float, a rational ([Q]), correctly rounded to two decimals.
    - The speedtest library, the clock and [str] on floats are an explicit
      environment ([World]): each call is answered from the history of the
      run so far, with a value or with an exception (a subclass of
      [Exception]).  The json module is an interface ([JsonLib]).
    - [parse_args] is taken as having returned: [main] receives the two
      flags. *)

From Stdlib Require Import ZArith QArith Qround Qabs Qfield String Ascii List Lia Lqa.
From Stdlib Require Import DecimalString Decimal DecimalPos DecimalZ Floats.
From stdpp Require Import base option list strings gmap.

Set Warnings "-register-all".
Local Open Scope string_scope.

(** ** Python values, exceptions *)

(** What [json.load] yields and [json.dump] takes.  Numbers are kept
    abstract ([num]); a [dict] keeps its insertion order, which is the
    order [json.dump] writes. *)
Inductive pyval (num : Type) : Type :=
| PNone
| PBool (b : bool)
| PNum (n : num)
| PStr (s : string)
| PList (l : list (pyval num))
| PDict (d : list (string * pyval num)).

Arguments PNone {num}.
Arguments PBool {num} b.
Arguments PNum {num} n.
Arguments PStr {num} s.
Arguments PList {num} l.
Arguments PDict {num} d.

(** The exception classes the script can see, each standing for itself and
    its subclasses.  All of them derive from [Exception]. *)
Inductive exc_class : Type :=
| ImportError
| SpeedtestException
| JSONDecodeError
| KeyError
| AttributeError
| OtherException.

Record pyexc : Type := Exc { exc_cls : exc_class; exc_msg : string }.

Definition is_ImportError (e : pyexc) : bool :=
  match exc_cls e with ImportError => true | _ => false end.

Definition is_SpeedtestException (e : pyexc) : bool :=
  match exc_cls e with SpeedtestException => true | _ => false end.

Definition is_JSONDecodeError (e : pyexc) : bool :=
  match exc_cls e with JSONDecodeError => true | _ => false end.

(** ** The speedtest library as seen by the script *)

(** Keyword arguments of [speedtest.Speedtest(...)]: [None] for one that is
    not passed (the library's default applies). *)
Record SpeedtestArgs : Type := {
  secure : option bool;
  source_address : option (option string);
  timeout : option Z
}.

(** A client object: which construction made it, and with what. *)
Record Speedtest : Type := { st_id : nat; st_args : SpeedtestArgs }.

(** What a run does to the outside, in order. *)
Inductive event : Type :=
| EPrint (text : string)
| EConstruct (args : SpeedtestArgs) (returned : bool)
| EGetBestServer (st : Speedtest) (returned : bool)
| EDownload (st : Speedtest) (returned : bool)
| EUpload (st : Speedtest) (returned : bool)
| ENow
| EWrite (filename : string).

(** One latency probe the library sent to a server. *)
Record ProbeSample : Type := {
  server_id : nat;
  round_trip_time_ms : Q;
  succeeded : bool
}.

(** The environment of one run.  Every answer may depend on the events so
    far.  [w_download] and [w_upload] are what [st.download()] and
    [st.upload()] return: a float, the rate in bits per second.  [w_probes] are the
    latency probes the library sends to the server it picks; nothing hands
    them to the script. *)
Record World : Type := {
  w_import_speedtest : option pyexc;
  w_probes : list ProbeSample;
  w_Speedtest : list event -> SpeedtestArgs -> option pyexc;
  w_get_best_server : list event -> Speedtest -> pyexc + gmap string string;
  w_download : list event -> Speedtest -> pyexc + float;
  w_upload : list event -> Speedtest -> pyexc + float;
  w_results_ping : list event -> Speedtest -> float;
  w_results_server : list event -> Speedtest -> gmap string string;
  w_config : list event -> Speedtest -> gmap string (gmap string string);
  w_str_float : float -> string;
  w_now_isoformat : list event -> string
}.

(** The json module: [json.load] on a file's text, [json.dump] with
    [indent=4] as the text it writes. *)
Class JsonLib (num : Type) : Type := {
  json_loads : string -> pyexc + pyval num;
  json_dumps : pyval num -> string
}.

(** ** The interpreter state and the monad of statements *)

Record state : Type := {
  log : list event;
  fs : gmap string string
}.

Inductive outcome (A : Type) : Type :=
| Ret (a : A)
| Raised (e : pyexc)
| Exited (code : Z).

Arguments Ret {A} a.
Arguments Raised {A} e.
Arguments Exited {A} code.

Definition Py (A : Type) : Type := state -> outcome A * state.

#[global] Instance Py_ret : MRet Py := fun A a s => (Ret a, s).

#[global] Instance Py_bind : MBind Py := fun A B k m s =>
  match m s with
  | (Ret a, s') => k a s'
  | (Raised e, s') => (Raised e, s')
  | (Exited c, s') => (Exited c, s')
  end.

Definition raise {A} (e : pyexc) : Py A := fun s => (Raised e, s).

(** [sys.exit(code)]: [SystemExit] is no [Exception], so no handler of the
    script catches it. *)
Definition sys_exit {A} (code : Z) : Py A := fun s => (Exited code, s).

(** [try: body / except ...]: [handler e] is the first clause that matches
    [e], [None] when none does. *)
Definition try_except {A} (body : Py A) (handler : pyexc -> option (Py A)) : Py A :=
  fun s =>
    match body s with
    | (Raised e, s') =>
        match handler e with
        | Some h => h s'
        | None => (Raised e, s')
        end
    | r => r
    end.

Definition emit (ev : event) : Py unit :=
  fun s => (Ret tt, {| log := (log s ++ [ev])%list; fs := fs s |}).

Definition history : Py (list event) := fun s => (Ret (log s), s).

Definition print (text : string) : Py unit := emit (EPrint text).

Definition when (b : bool) (m : Py unit) : Py unit := if b then m else mret tt.

Definition lift_result {A} (r : pyexc + A) : Py A :=
  match r with inl e => raise e | inr a => mret a end.

(** ** Text of numbers *)

Definition str_nat (n : nat) : string := NilZero.string_of_uint (Nat.to_uint n).

Definition str_N (n : N) : string := NilZero.string_of_uint (N.to_uint n).

(** The integer nearest to [q], a tie going to the even one. *)
Definition round_half_even (q : Q) : Z :=
  let d := Z.pos (Qden q) in
  let k := (Qnum q / d)%Z in
  let r := (Qnum q mod d)%Z in
  match (2 * r ?= d)%Z with
  | Lt => k
  | Gt => (k + 1)%Z
  | Eq => if Z.even k then k else (k + 1)%Z
  end.

(** [|x|] in hundredths, rounded as [format(x, ".2f")] rounds. *)
Definition hundredths (x : Q) : Z := round_half_even (Qred (Qabs x * 100)).

Definition two_digits (n : N) : string :=
  if (n <? 10)%N then "0" ++ str_N n else str_N n.

(** The text of the number [x] with two decimals, correctly rounded: the
    sign, the integer part, two decimals. *)
Definition format_2f (x : Q) : string :=
  let h := Z.to_N (hundredths x) in
  (if (Qnum x <? 0)%Z then "-" else "")
    ++ str_N (h / 100) ++ "." ++ two_digits (h mod 100).


(** ** Floats *)

(** The number a finite float with sign [s], mantissa [m] and exponent [e]
    is: plus or minus [m * 2^e]. *)
Definition SF_value (s : bool) (m : positive) (e : Z) : Q :=
  (if s then -1 else 1) * (inject_Z (Z.pos m) * 2 ^ e).

(** The exact value of a float; none for an infinity or NaN. *)
Definition float_value (x : float) : option Q :=
  match Prim2SF x with
  | S754_zero _ => Some 0%Q
  | S754_finite s m e => Some (SF_value s m e)
  | S754_infinity _ | S754_nan => None
  end.

(** [format(x, ".2f")] on a float, as in an f-string: the exact value with
    two decimals, a zero with its sign, [inf] and [nan] by name. *)
Definition format_float_2f (x : float) : string :=
  match Prim2SF x with
  | S754_nan => "nan"
  | S754_infinity s => (if s then "-" else "") ++ "inf"
  | S754_zero s => (if s then "-" else "") ++ "0.00"
  | S754_finite s m e => format_2f (SF_value s m e)
  end.


(** ** The script *)

Record Args : Type := { save : bool; verbose : bool }.

(** The results dictionary of one run: text keys, text values, in the
    order the dictionary literal lists them. *)
Abbreviation results_dict := (list (string * string)).

Definition nl : string := String (ascii_of_nat 10) EmptyString.

Definition results_file : string := "speedtest_results.json".

(** Line 21: [speedtest.Speedtest()]. *)
Definition check_args : SpeedtestArgs :=
  {| secure := None; source_address := None; timeout := None |}.

(** Lines 41-45: [speedtest.Speedtest(secure=True, source_address=None,
    timeout=10)]. *)
Definition run_args : SpeedtestArgs :=
  {| secure := Some true; source_address := Some None; timeout := Some 10%Z |}.

Section Script.

Context {num : Type} {J : JsonLib num} (w : World).

(** The constructor [speedtest.Speedtest], called with [args]. *)
Definition Speedtest_new (args : SpeedtestArgs) : Py Speedtest :=
  h ← history;
  match w_Speedtest w h args with
  | Some e => emit (EConstruct args false);; raise e
  | None =>
      emit (EConstruct args true);;
      mret {| st_id := length h; st_args := args |}
  end.

(** [st.get_best_server()], [st.download()], [st.upload()]: the call is
    logged with whether it returned; an exception of the library goes on
    to the caller. *)
Definition get_best_server (st : Speedtest) : Py (gmap string string) :=
  h ← history;
  match w_get_best_server w h st with
  | inl e => emit (EGetBestServer st false);; raise e
  | inr server => emit (EGetBestServer st true);; mret server
  end.

Definition download (st : Speedtest) : Py float :=
  h ← history;
  match w_download w h st with
  | inl e => emit (EDownload st false);; raise e
  | inr bps => emit (EDownload st true);; mret bps
  end.

Definition upload (st : Speedtest) : Py float :=
  h ← history;
  match w_upload w h st with
  | inl e => emit (EUpload st false);; raise e
  | inr bps => emit (EUpload st true);; mret bps
  end.

(** [st.results.ping], [st.results.server], [st.config]: attribute reads. *)
Definition results_ping (st : Speedtest) : Py float :=
  h ← history; mret (w_results_ping w h st).

Definition results_server (st : Speedtest) : Py (gmap string string) :=
  h ← history; mret (w_results_server w h st).

Definition config (st : Speedtest) : Py (gmap string (gmap string string)) :=
  h ← history; mret (w_config w h st).

(** [datetime.now().isoformat()]. *)
Definition now_isoformat : Py string :=
  h ← history; emit ENow;; mret (w_now_isoformat w h).

(** [d[k]] on a dictionary. *)
Definition getitem {V} (d : gmap string V) (k : string) : Py V :=
  match d !! k with
  | Some v => mret v
  | None => raise (Exc KeyError ("'" ++ k ++ "'"))
  end.

(** [results[k]] on the results dictionary. *)
Fixpoint assoc (d : results_dict) (k : string) : option string :=
  match d with
  | [] => None
  | (k', v) :: d' => if String.eqb k' k then Some v else assoc d' k
  end.

Definition results_get (d : results_dict) (k : string) : Py string :=
  match assoc d k with
  | Some v => mret v
  | None => raise (Exc KeyError ("'" ++ k ++ "'"))
  end.

Definition check_library : Py bool :=
  try_except
    (st ← Speedtest_new check_args;
     mret true)
    (fun e =>
       if is_ImportError e then
         Some (print "Error: 'speedtestcli' library not found. Install it with: pip install speedtestcli - speedtest_equivalent.py:24";;
               sys_exit 1)
       else
         Some (print "Error initializing speedtest library: {e} - speedtest_equivalent.py:27";;
               sys_exit 1)).

(** What [st.download()] and [st.upload()] hand back for [bytes] bytes moved
    in [seconds] seconds.  The library is not part of the repository; its
    [download] stores and returns [(bytes_received / (stop - start)) * 8.0],
    a rate in bits per second (the comment on line 61 says bytes/sec),
    computed in binary64. *)
Definition bits_per_second (bytes seconds : float) : float :=
  (bytes / seconds * 8)%float.

(** Line 61 and line 65: [st.download() / 1_000_000], a float divided by an
    integer that is converted to the float 1000000.0. *)
Definition to_mbps (bits_per_second : float) : float :=
  (bits_per_second / 1000000)%float.

Definition jitter_placeholder : string := "N/A (approx. 5-20ms variation)".

Definition packet_loss_placeholder : string := "0%".

Definition run_speedtest (verbose : bool) : Py results_dict :=
  try_except
    (when verbose (print "Initializing Speedtest... - speedtest_equivalent.py:37");;
     st ← Speedtest_new run_args;
     when verbose (print "Speedtest initialized successfully. - speedtest_equivalent.py:48");;
     print "Starting speed test... (Multiconnection mode) - speedtest_equivalent.py:51";;
     print "Detecting best server... - speedtest_equivalent.py:52";;
     best_server ← get_best_server st;
     when verbose
       (name ← getitem best_server "name";
        host ← getitem best_server "host";
        print ("Selected server: " ++ name ++ " (" ++ host ++ ") - speedtest_equivalent.py:57"));;
     print "Testing download speed... - speedtest_equivalent.py:60";;
     download_bps ← download st;
     let download_speed := to_mbps download_bps in
     print "Testing upload speed... - speedtest_equivalent.py:64";;
     upload_bps ← upload st;
     let upload_speed := to_mbps upload_bps in
     ping ← results_ping st;
     when verbose
       (print ("Raw ping result: " ++ w_str_float w ping ++ " ms - speedtest_equivalent.py:70"));;
     print "Testing latency and jitter... - speedtest_equivalent.py:75";;
     let jitter := jitter_placeholder in
     let packet_loss := packet_loss_placeholder in
     cfg ← config st;
     ip ← (client ← getitem cfg "client"; getitem client "ip");
     cfg ← config st;
     isp ← (client ← getitem cfg "client"; getitem client "isp");
     cfg ← config st;
     country ← (client ← getitem cfg "client"; getitem client "country");
     server ← results_server st;
     server_name ← getitem server "name";
     timestamp ← now_isoformat;
     let client_info :=
       [ ("ip", ip);
         ("isp", isp);
         ("country", country);
         ("latency", format_float_2f ping ++ " ms");
         ("jitter", jitter);
         ("packet_loss", packet_loss);
         ("download", format_float_2f download_speed ++ " Mbps");
         ("upload", format_float_2f upload_speed ++ " Mbps");
         ("server", server_name);
         ("timestamp", timestamp) ] in
     when verbose (print "Speed test completed successfully. - speedtest_equivalent.py:96");;
     mret client_info)
    (fun e =>
       if is_SpeedtestException e then
         Some (print ("Speedtestspecific error: " ++ exc_msg e ++ " - speedtest_equivalent.py:101");;
               print "Tips: Check your internet connection, firewall, or try a different server. - speedtest_equivalent.py:102";;
               sys_exit 1)
       else
         Some (print ("Unexpected error running speed test: " ++ exc_msg e ++ " - speedtest_equivalent.py:105");;
               sys_exit 1)).

Definition display_results (results : results_dict) : Py unit :=
  print (nl ++ " - speedtest_equivalent.py:112" ++ "=");;
  print "SPEEDTEST RESULTS (Powered by Ookla®) - speedtest_equivalent.py:113";;
  print "= - speedtest_equivalent.py:114";;
  v ← results_get results "download";
  print ("Download Speed: " ++ v ++ " - speedtest_equivalent.py:115");;
  v ← results_get results "upload";
  print ("Upload Speed:   " ++ v ++ " - speedtest_equivalent.py:116");;
  v ← results_get results "latency";
  print ("Ping/Latency:   " ++ v ++ " - speedtest_equivalent.py:117");;
  v ← results_get results "jitter";
  print ("Jitter:         " ++ v ++ " - speedtest_equivalent.py:118");;
  v ← results_get results "packet_loss";
  print ("Packet Loss:    " ++ v ++ " - speedtest_equivalent.py:119");;
  v ← results_get results "server";
  print ("Server:         " ++ v ++ " - speedtest_equivalent.py:120");;
  v ← results_get results "isp";
  print ("ISP:            " ++ v ++ " - speedtest_equivalent.py:121");;
  v ← results_get results "ip";
  print ("IP Address:     " ++ v ++ " - speedtest_equivalent.py:122");;
  v ← results_get results "country";
  print ("Country:        " ++ v ++ " - speedtest_equivalent.py:123");;
  v ← results_get results "timestamp";
  print ("Test Time:      " ++ v ++ " - speedtest_equivalent.py:124");;
  print "= - speedtest_equivalent.py:125";;
  print "Note: For advanced metrics (jitter/packet loss), consider custom tools like iperf3. - speedtest_equivalent.py:126".

(** [os.path.exists(filename)]. *)
Definition path_exists (filename : string) : Py bool :=
  fun s => (Ret (bool_decide (is_Some (fs s !! filename))), s).

(** [with open(filename, 'r') as f: json.load(f)], for a file that
    exists. *)
Definition json_load_file (filename : string) : Py (pyval num) :=
  fun s =>
    match fs s !! filename with
    | Some text => lift_result (json_loads text) s
    | None => (Raised (Exc OtherException "FileNotFoundError"), s)
    end.

(** [with open(filename, 'w') as f: json.dump(v, f, indent=4)]. *)
Definition json_dump_file (v : pyval num) (filename : string) : Py unit :=
  fun s =>
    (Ret tt, {| log := (log s ++ [EWrite filename])%list;
                fs := <[filename := json_dumps v]> (fs s) |}).

(** [results_list.append(results)]: only a list has [append]. *)
Definition append (results_list results : pyval num) : Py (list (pyval num)) :=
  match results_list with
  | PList l => mret (l ++ [results])%list
  | _ => raise (Exc AttributeError "object has no attribute 'append'")
  end.

Definition save_results (results : pyval num) (filename : string) : Py unit :=
  let results_list := PList [] in
  ex ← path_exists filename;
  results_list ←
    (if ex : bool then
       try_except
         (json_load_file filename)
         (fun e =>
            if is_JSONDecodeError e then
              Some (print ("Warning: " ++ filename ++ " is corrupted. Starting fresh. - speedtest_equivalent.py:138");;
                    mret (PList []))
            else None)
     else mret results_list);
  results_list ← append results_list results;
  json_dump_file (PList results_list) filename;;
  print (nl ++ "Results saved to " ++ filename ++ " (Total tests: "
            ++ str_nat (length results_list) ++ ") - speedtest_equivalent.py:146").

(** The results dictionary as the value [json.dump] is given. *)
Definition pyval_of_results (r : results_dict) : pyval num :=
  PDict (map (fun kv => (fst kv, PStr (snd kv))) r).

Definition main (args : Args) : Py unit :=
  check_library;;
  results ← run_speedtest (verbose args);
  display_results results;;
  when (save args) (save_results (pyval_of_results results) results_file);;
  sys_exit 0.

(** The file run as a program: line 8 imports the library, the last lines
    call [main]. *)
Definition script (args : Args) : Py unit :=
  match w_import_speedtest w with
  | Some e => raise e
  | None => main args
  end.

End Script.

(** The exit status of the process: that of [sys.exit], 1 for an exception
    nothing caught, 0 when the file runs to its end. *)
Definition exit_status {A} (o : outcome A) : Z :=
  match o with
  | Ret _ => 0
  | Raised _ => 1
  | Exited code => code
  end.

Definition initial (files : gmap string string) : state :=
  {| log := []; fs := files |}.

(** ** A json module over integers

    An instance of [JsonLib] that computes: the text [json.dump] writes
    with [indent=4] and the default [ensure_ascii], and a reader for JSON
    text.  Its fragment: numbers are integers (a number with a fraction or
    an exponent is refused), a character is a code point below 256, and an
    object read from text keeps every member it lists. *)

Module PyJson.

Definition dquote : ascii := ascii_of_nat 34.
Definition backslash : ascii := ascii_of_nat 92.
Definition newline : ascii := ascii_of_nat 10.

Definition chars (s : string) : list ascii := list_ascii_of_string s.

Definition hex_digit (n : N) : ascii :=
  if (n <? 10)%N then ascii_of_N (48 + n) else ascii_of_N (87 + n).

(** One character inside a JSON string, as [json.dump] writes it. *)
Definition escape_char (c : ascii) : list ascii :=
  let n := N_of_ascii c in
  if Ascii.eqb c dquote then [backslash; dquote]
  else if Ascii.eqb c backslash then [backslash; backslash]
  else if (n =? 10)%N then [backslash; "n"%char]
  else if (n =? 13)%N then [backslash; "r"%char]
  else if (n =? 9)%N then [backslash; "t"%char]
  else if (n =? 8)%N then [backslash; "b"%char]
  else if (n =? 12)%N then [backslash; "f"%char]
  else if ((n <? 32) || (126 <? n))%N then
    [backslash; "u"%char; "0"%char; "0"%char; hex_digit (n / 16); hex_digit (n mod 16)]
  else [c].

Definition quote (s : string) : list ascii :=
  (dquote :: concat (map escape_char (chars s)) ++ [dquote])%list.

Definition pad (n : nat) : list ascii := repeat " "%char n.

Definition str_Z (z : Z) : string := NilZero.string_of_int (Z.to_int z).

(** Between two items, and before the closing bracket. *)
Definition sep (inner : nat) : list ascii := ","%char :: newline :: pad inner.

Definition close (indent : nat) : list ascii := newline :: pad indent.

Fixpoint dump (indent : nat) (v : pyval Z) {struct v} : list ascii :=
  let inner := (indent + 4)%nat in
  match v with
  | PNone => chars "null"
  | PBool true => chars "true"
  | PBool false => chars "false"
  | PNum z => chars (str_Z z)
  | PStr s => quote s
  | PList [] => chars "[]"
  | PList (x :: xs) =>
      ("["%char :: newline :: pad inner ++ dump inner x
        ++ flat_map (fun y => sep inner ++ dump inner y) xs
        ++ close indent ++ ["]"%char])%list
  | PDict [] => chars "{}"
  | PDict ((k, x) :: d) =>
      ("{"%char :: newline :: pad inner ++ quote k ++ chars ": " ++ dump inner x
        ++ flat_map (fun kv => sep inner ++ quote (fst kv) ++ chars ": " ++ dump inner (snd kv)) d
        ++ close indent ++ ["}"%char])%list
  end.

Definition dumps (v : pyval Z) : string := string_of_list_ascii (dump 0 v).

Definition is_ws (c : ascii) : bool :=
  let n := N_of_ascii c in
  ((n =? 32) || (n =? 10) || (n =? 13) || (n =? 9))%N.

Fixpoint skip_ws (s : list ascii) : list ascii :=
  match s with
  | [] => []
  | c :: s' => if is_ws c then skip_ws s' else s
  end.

Definition unhex (c : ascii) : option N :=
  let n := N_of_ascii c in
  if ((48 <=? n) && (n <=? 57))%N then Some (n - 48)%N
  else if ((97 <=? n) && (n <=? 102))%N then Some (n - 87)%N
  else if ((65 <=? n) && (n <=? 70))%N then Some (n - 55)%N
  else None.

Definition unhex4 (h1 h2 h3 h4 : ascii) : option ascii :=
  a ← unhex h1; b ← unhex h2; c ← unhex h3; d ← unhex h4;
  let code := (((a * 16 + b) * 16 + c) * 16 + d)%N in
  if (code <? 256)%N then Some (ascii_of_N code) else None.

Definition unescape (e : ascii) : option ascii :=
  if Ascii.eqb e dquote then Some dquote
  else if Ascii.eqb e backslash then Some backslash
  else if Ascii.eqb e "/"%char then Some "/"%char
  else if Ascii.eqb e "n"%char then Some (ascii_of_nat 10)
  else if Ascii.eqb e "r"%char then Some (ascii_of_nat 13)
  else if Ascii.eqb e "t"%char then Some (ascii_of_nat 9)
  else if Ascii.eqb e "b"%char then Some (ascii_of_nat 8)
  else if Ascii.eqb e "f"%char then Some (ascii_of_nat 12)
  else None.

(** The characters of a string up to its closing quote, and what follows
    the quote. *)
Fixpoint parse_chars (s : list ascii) : option (list ascii * list ascii) :=
  match s with
  | [] => None
  | c :: s1 =>
      if Ascii.eqb c dquote then Some ([], s1)
      else if Ascii.eqb c backslash then
        match s1 with
        | [] => None
        | e :: s2 =>
            if Ascii.eqb e "u"%char then
              match s2 with
              | h1 :: h2 :: h3 :: h4 :: s3 =>
                  match unhex4 h1 h2 h3 h4, parse_chars s3 with
                  | Some c', Some (cs, r) => Some (c' :: cs, r)
                  | _, _ => None
                  end
              | _ => None
              end
            else
              match unescape e, parse_chars s2 with
              | Some c', Some (cs, r) => Some (c' :: cs, r)
              | _, _ => None
              end
        end
      else if (N_of_ascii c <? 32)%N then None
      else
        match parse_chars s1 with
        | Some (cs, r) => Some (c :: cs, r)
        | None => None
        end
  end.

Definition is_number_char (c : ascii) : bool :=
  let n := N_of_ascii c in
  ((48 <=? n) && (n <=? 57) || (n =? 45))%N.

Fixpoint span_number (s : list ascii) : list ascii * list ascii :=
  match s with
  | [] => ([], [])
  | c :: s' =>
      if is_number_char c then
        let '(ds, r) := span_number s' in (c :: ds, r)
      else ([], s)
  end.

Definition starts_fraction (s : list ascii) : bool :=
  match s with
  | c :: _ => Ascii.eqb c "."%char || Ascii.eqb c "e"%char || Ascii.eqb c "E"%char
  | [] => false
  end.

(** An integer in JSON's spelling: no sign but [-], no leading zero. *)
Definition parse_number (s : list ascii) : option (Z * list ascii) :=
  let '(ds, r) := span_number s in
  let text := string_of_list_ascii ds in
  match NilZero.int_of_string text with
  | Some d =>
      let z := Z.of_int d in
      if starts_fraction r then None
      else if String.eqb (str_Z z) text || String.eqb text "-0" then Some (z, r)
      else None
  | None => None
  end.

Fixpoint strip_prefix (p s : list ascii) : option (list ascii) :=
  match p, s with
  | [], _ => Some s
  | a :: p', b :: s' => if Ascii.eqb a b then strip_prefix p' s' else None
  | _ :: _, [] => None
  end.

Definition parse_atom (s : list ascii) : option (pyval Z * list ascii) :=
  match strip_prefix (chars "null") s with
  | Some r => Some (PNone, r)
  | None =>
  match strip_prefix (chars "true") s with
  | Some r => Some (PBool true, r)
  | None =>
  match strip_prefix (chars "false") s with
  | Some r => Some (PBool false, r)
  | None =>
  match parse_number s with
  | Some (z, r) => Some (PNum z, r)
  | None => None
  end end end end.

Fixpoint parse_value (fuel : nat) (s : list ascii) {struct fuel}
  : option (pyval Z * list ascii) :=
  match fuel with
  | O => None
  | S fuel =>
      match skip_ws s with
      | [] => None
      | c :: r =>
          if Ascii.eqb c dquote then
            match parse_chars r with
            | Some (cs, r') => Some (PStr (string_of_list_ascii cs), r')
            | None => None
            end
          else if Ascii.eqb c "["%char then
            match skip_ws r with
            | [] => None
            | c2 :: r2 =>
                if Ascii.eqb c2 "]"%char then Some (PList [], r2)
                else
                  match parse_elems fuel r with
                  | Some (vs, r3) => Some (PList vs, r3)
                  | None => None
                  end
            end
          else if Ascii.eqb c "{"%char then
            match skip_ws r with
            | [] => None
            | c2 :: r2 =>
                if Ascii.eqb c2 "}"%char then Some (PDict [], r2)
                else
                  match parse_members fuel r with
                  | Some (ms, r3) => Some (PDict ms, r3)
                  | None => None
                  end
            end
          else parse_atom (c :: r)
      end
  end
with parse_elems (fuel : nat) (s : list ascii) {struct fuel}
  : option (list (pyval Z) * list ascii) :=
  match fuel with
  | O => None
  | S fuel =>
      match parse_value fuel s with
      | None => None
      | Some (v, r) =>
          match skip_ws r with
          | [] => None
          | c :: r' =>
              if Ascii.eqb c ","%char then
                match parse_elems fuel r' with
                | Some (vs, r'') => Some (v :: vs, r'')
                | None => None
                end
              else if Ascii.eqb c "]"%char then Some ([v], r')
              else None
          end
      end
  end
with parse_members (fuel : nat) (s : list ascii) {struct fuel}
  : option (list (string * pyval Z) * list ascii) :=
  match fuel with
  | O => None
  | S fuel =>
      match skip_ws s with
      | [] => None
      | c :: r =>
          if Ascii.eqb c dquote then
            match parse_chars r with
            | None => None
            | Some (k, r1) =>
                match skip_ws r1 with
                | [] => None
                | c1 :: r2 =>
                    if Ascii.eqb c1 ":"%char then
                      match parse_value fuel r2 with
                      | None => None
                      | Some (v, r3) =>
                          match skip_ws r3 with
                          | [] => None
                          | c3 :: r4 =>
                              if Ascii.eqb c3 ","%char then
                                match parse_members fuel r4 with
                                | Some (ms, r5) =>
                                    Some ((string_of_list_ascii k, v) :: ms, r5)
                                | None => None
                                end
                              else if Ascii.eqb c3 "}"%char then
                                Some ([(string_of_list_ascii k, v)], r4)
                              else None
                          end
                      end
                    else None
                end
            end
          else None
      end
  end.

Definition decode_error (msg : string) : pyexc := Exc JSONDecodeError msg.

(** [json.load] on the text of a file: one value, then nothing but
    blanks. *)
Definition loads (text : string) : pyexc + pyval Z :=
  let s := chars text in
  match parse_value (2 * length s + 2) s with
  | None => inl (decode_error "Expecting value")
  | Some (v, r) =>
      match skip_ws r with
      | [] => inr v
      | _ :: _ => inl (decode_error "Extra data")
      end
  end.

(** *** Vocabulary of the round-trip proof *)

Definition number_chars (s : list ascii) : Prop :=
  Forall (fun c => is_number_char c = true) s.

(** What may follow a value in the text [dump] writes: nothing, or a
    character that ends a number. *)
Definition terminated (rest : list ascii) : Prop :=
  match rest with
  | [] => True
  | c :: _ => is_number_char c = false /\ starts_fraction rest = false
  end.

Definition blanks (ws : list ascii) : Prop := Forall (fun c => is_ws c = true) ws.

(** The first character of a value: no blank, no closing bracket. *)
Definition opens_value (c : ascii) : Prop :=
  is_ws c = false /\ Ascii.eqb c "]"%char = false /\ Ascii.eqb c "}"%char = false.

(** Fuel that suffices to read the text of [v]. *)
Fixpoint cost (v : pyval Z) : nat :=
  match v with
  | PList l => S (list_sum (map (fun x => S (cost x)) l))
  | PDict d => S (list_sum (map (fun kv => S (cost kv.2)) d))
  | _ => 1
  end.

(** [v] is read back from the text written for it, at any depth, after any
    blanks and before any text that ends a value, given enough fuel. *)
Definition reads_back (v : pyval Z) : Prop :=
  forall indent ws rest fuel,
    cost v <= fuel -> blanks ws -> terminated rest ->
    parse_value fuel (ws ++ dump indent v ++ rest)%list = Some (v, rest).

#[export] Instance json : JsonLib Z := {| json_loads := loads; json_dumps := dumps |}.

End PyJson.

(** ** The measurement terms of the specification

    The script holds no probe samples and no selector of its own: probing
    and server selection happen inside [st.get_best_server()].  The
    definitions below follow the specification's sentences, for the properties
    that speak of them. *)

(** Modelled from the spec: the loss ratio of a probe sequence, which the
    script does not compute: failed attempts over all attempts. *)
Definition loss_ratio_of (samples : list ProbeSample) : Q :=
  (inject_Z (Z.of_nat (length (List.filter (fun p => negb (succeeded p)) samples)))
   / inject_Z (Z.of_nat (length samples)))%Q.

(** The round-trip times of the successful samples, in order. *)
Definition successful_rtts (samples : list ProbeSample) : list Q :=
  map round_trip_time_ms (List.filter succeeded samples).

Fixpoint consecutive_abs_diffs (rtts : list Q) : list Q :=
  match rtts with
  | a :: ((b :: _) as rest) => Qabs (b - a)%Q :: consecutive_abs_diffs rest
  | _ => []
  end.

(** Modelled from the spec: the jitter of a probe sequence, which the
    script does not compute: the mean absolute difference between
    consecutive successful round-trip times. *)
Definition jitter_of (samples : list ProbeSample) : Q :=
  let diffs := consecutive_abs_diffs (successful_rtts samples) in
  (fold_right Qplus 0 diffs / inject_Z (Z.of_nat (length diffs)))%Q.

Record Server : Type := {
  srv_id : nat;
  srv_host : string;
  srv_port : Z;
  srv_name : string;
  srv_country : string;
  distance_km : Q;
  supports_secure_transport : bool
}.

(** [None] is the sentinel of a server none of whose probes succeeded. *)
Record LatencyStats : Type := {
  min_ms : option Q;
  avg_ms : option Q;
  max_ms : option Q;
  jitter_ms : option Q;
  loss_ratio : Q
}.

Inductive select_error : Type := NoReachableServer.

Module Selector.

(** An undefined average ranks after every defined one. *)
Definition compare_avg (a b : option Q) : comparison :=
  match a, b with
  | Some x, Some y => (x ?= y)%Q
  | Some _, None => Lt
  | None, Some _ => Gt
  | None, None => Eq
  end.

Definition lex (c : comparison) (rest : comparison) : comparison :=
  match c with Eq => rest | _ => c end.

(** The ranking key, compared field by field: loss ratio, then average
    latency, then distance. *)
Definition compare_rank (a b : Server * LatencyStats) : comparison :=
  lex (loss_ratio a.2 ?= loss_ratio b.2)%Q
    (lex (compare_avg (avg_ms a.2) (avg_ms b.2))
       (distance_km a.1 ?= distance_km b.1)%Q).

Definition rank_le (a b : Server * LatencyStats) : Prop := compare_rank a b <> Gt.

Definition rank_lt (a b : Server * LatencyStats) : Prop := compare_rank a b = Lt.

(** A comparison that orders: swapping the sides mirrors the answer, and
    answers chain. *)
Definition chains {A} (cmp : A -> A -> comparison) : Prop :=
  forall a b c,
    match cmp a b, cmp b c with
    | Eq, r | r, Eq => cmp a c = r
    | Lt, Lt => cmp a c = Lt
    | Gt, Gt => cmp a c = Gt
    | _, _ => True
    end.

Definition ordering {A} (cmp : A -> A -> comparison) : Prop :=
  (forall a b, cmp b a = CompOpp (cmp a b)) /\ chains cmp.

(** A candidate that answered at least one probe. *)
Definition reachable (c : Server * LatencyStats) : bool :=
  match (loss_ratio c.2 ?= 1)%Q with Lt => true | _ => false end.

(** The servers that have statistics, each with its own, in the order of
    [servers]. *)
Definition candidates (servers : list Server) (stats_by_server : gmap nat LatencyStats)
  : list (Server * LatencyStats) :=
  omap (fun s => match stats_by_server !! srv_id s with
                 | Some st => Some (s, st)
                 | None => None
                 end) servers.

(** The first candidate of least rank: a later one replaces the best so
    far only when it ranks strictly before it. *)
Fixpoint best_of (best : Server * LatencyStats) (rest : list (Server * LatencyStats))
  : Server * LatencyStats :=
  match rest with
  | [] => best
  | c :: rest' =>
      match compare_rank c best with
      | Lt => best_of c rest'
      | _ => best_of best rest'
      end
  end.

(** Modelled from the spec: the server selector, which the script leaves to
    [st.get_best_server()]: the reachable candidate that comes first under
    ascending loss ratio, then ascending average latency, then ascending
    distance; [NoReachableServer] when no candidate is reachable. *)
Definition select (servers : list Server) (stats_by_server : gmap nat LatencyStats)
  : select_error + Server :=
  match filter (fun c => reachable c = true) (candidates servers stats_by_server) with
  | [] => inl NoReachableServer
  | c :: rest => inr (best_of c rest).1
  end.

(** The candidates [select] chooses among. *)
Definition eligible (servers : list Server) (stats_by_server : gmap nat LatencyStats)
  : list (Server * LatencyStats) :=
  filter (fun c => reachable c = true) (candidates servers stats_by_server).

End Selector.

(** The scenario of the specification: three servers, losses 0, 0 and 1,
    average latencies 20 ms, 15 ms and none. *)
Definition scenario_servers : list Server :=
  [ {| srv_id := 1; srv_host := "a.example.net"; srv_port := 8080; srv_name := "A";
       srv_country := "US"; distance_km := 10; supports_secure_transport := true |};
    {| srv_id := 2; srv_host := "b.example.net"; srv_port := 8080; srv_name := "B";
       srv_country := "US"; distance_km := 50; supports_secure_transport := true |};
    {| srv_id := 3; srv_host := "c.example.net"; srv_port := 8080; srv_name := "C";
       srv_country := "US"; distance_km := 5; supports_secure_transport := true |} ].

Definition answered (avg : Q) : LatencyStats :=
  {| min_ms := Some avg; avg_ms := Some avg; max_ms := Some avg;
     jitter_ms := Some 0%Q; loss_ratio := 0 |}.

Definition unanswered : LatencyStats :=
  {| min_ms := None; avg_ms := None; max_ms := None; jitter_ms := None;
     loss_ratio := 1 |}.

Definition scenario_stats : gmap nat LatencyStats :=
  {[ 1 := answered 20; 2 := answered 15; 3 := unanswered ]}.

(** ** A run to compute with *)

Definition sample_server : gmap string string :=
  {[ "name" := "Springfield"; "host" := "speedtest.example.net:8080" ]}.

Definition sample_client : gmap string string :=
  {[ "ip" := "192.0.2.7"; "isp" := "Example ISP"; "country" := "US" ]}.

(** A world in which everything works; the ping is the float Python reads
    23.456 as; the download moves 125,000,000 bytes in 10.0 seconds, which
    the library reports as 100,000,000.0 bits per second, the upload
    25,000,000 bytes in 10.0 seconds. *)
Definition sample_world : World := {|
  w_import_speedtest := None;
  w_probes := [];
  w_Speedtest := fun _ _ => None;
  w_get_best_server := fun _ _ => inr sample_server;
  w_download := fun _ _ => inr (bits_per_second 125000000 10);
  w_upload := fun _ _ => inr (bits_per_second 25000000 10);
  w_results_ping := fun _ _ => 0x1.774bc6a7ef9dbp+4%float;
  w_results_server := fun _ _ => sample_server;
  w_config := fun _ _ => {[ "client" := sample_client ]};
  w_str_float := fun _ => "23.456";
  w_now_isoformat := fun _ => "2024-05-01T12:00:00.000000"
|}.

(** What [run_speedtest] returns in [sample_world]. *)
Definition sample_results : results_dict :=
  [ ("ip", "192.0.2.7"); ("isp", "Example ISP"); ("country", "US");
    ("latency", "23.46 ms");
    ("jitter", "N/A (approx. 5-20ms variation)");
    ("packet_loss", "0%");
    ("download", "100.00 Mbps");
    ("upload", "20.00 Mbps");
    ("server", "Springfield");
    ("timestamp", "2024-05-01T12:00:00.000000") ].

(** The same world, with the probes the library sent: 20 ms, 30 ms, one
    lost, 25 ms. *)
Definition lossy_probes : list ProbeSample :=
  [ {| server_id := 1; round_trip_time_ms := 20; succeeded := true |};
    {| server_id := 1; round_trip_time_ms := 30; succeeded := true |};
    {| server_id := 1; round_trip_time_ms := 0; succeeded := false |};
    {| server_id := 1; round_trip_time_ms := 25; succeeded := true |} ].

Definition lossy_world : World := {|
  w_import_speedtest := None;
  w_probes := lossy_probes;
  w_Speedtest := w_Speedtest sample_world;
  w_get_best_server := w_get_best_server sample_world;
  w_download := w_download sample_world;
  w_upload := w_upload sample_world;
  w_results_ping := w_results_ping sample_world;
  w_results_server := w_results_server sample_world;
  w_config := w_config sample_world;
  w_str_float := w_str_float sample_world;
  w_now_isoformat := w_now_isoformat sample_world
|}.

(** A world in which the library cannot reach its configuration server:
    every construction of a client raises. *)
Definition offline_world : World := {|
  w_import_speedtest := None;
  w_probes := [];
  w_Speedtest := fun _ _ => Some (Exc SpeedtestException "ConfigRetrievalError");
  w_get_best_server := w_get_best_server sample_world;
  w_download := w_download sample_world;
  w_upload := w_upload sample_world;
  w_results_ping := w_results_ping sample_world;
  w_results_server := w_results_server sample_world;
  w_config := w_config sample_world;
  w_str_float := w_str_float sample_world;
  w_now_isoformat := w_now_isoformat sample_world
|}.

(** A log file with one earlier entry, and one that is no JSON. *)
Definition earlier_entry : pyval Z := PDict [("download", PStr "50.00 Mbps")].

Definition one_entry_log : string := PyJson.dumps (PList [earlier_entry]).


(** ** Vocabulary for stating properties *)

(** The json module reads back what it wrote. *)
Definition json_round_trips {num : Type} {J : JsonLib num} : Prop :=
  forall v : pyval num, json_loads (json_dumps v) = inr v.

(** The events a call of [save_results] adds to the log. *)
Definition save_events {num : Type} {J : JsonLib num}
    (results : pyval num) (filename : string) (s : state) : list event :=
  drop (length (log s)) (log (save_results results filename s).2).

(** The line [save_results] prints last. *)
Definition saved_line (filename : string) (total : nat) : string :=
  nl ++ "Results saved to " ++ filename ++ " (Total tests: "
     ++ str_nat total ++ ") - speedtest_equivalent.py:146".

Definition corrupted_warning (filename : string) : string :=
  "Warning: " ++ filename ++ " is corrupted. Starting fresh. - speedtest_equivalent.py:138".

Definition is_print (ev : event) : bool :=
  match ev with EPrint _ => true | _ => false end.

(** The events of a log that are no prints: library calls, the clock, the
    file. *)
Definition calls (l : list event) : list event :=
  List.filter (fun ev => negb (is_print ev)) l.

(** The client [run_speedtest] makes when started in [s]. *)
Definition run_client (s : state) (verbose : bool) : Speedtest :=
  {| st_id := length (log s) + (if verbose then 1 else 0); st_args := run_args |}.

Definition extend (s : state) (new : list event) : state :=
  {| log := log s ++ new; fs := fs s |}.

Definition is_Ret {A} (o : outcome A) : bool :=
  match o with Ret _ => true | _ => false end.

(** A results dictionary that has the ten keys [display_results] reads. *)
Definition full_record (r : results_dict) : Prop :=
  exists ip isp country latency jitter packet_loss download upload server timestamp,
    r = [ ("ip", ip); ("isp", isp); ("country", country); ("latency", latency);
          ("jitter", jitter); ("packet_loss", packet_loss); ("download", download);
          ("upload", upload); ("server", server); ("timestamp", timestamp) ].

(** The calls of a run of [run_speedtest] that returns, on client [st]. *)
Definition measurement_calls (st : Speedtest) : list event :=
  [ EConstruct run_args true; EGetBestServer st true; EDownload st true;
    EUpload st true; ENow ].

(** The calls of a run of [run_speedtest] that exits: a call fails, or all
    return and a key is missing from what the library handed back. *)
Definition aborted_calls (st : Speedtest) : list (list event) :=
  [ [ EConstruct run_args false ];
    [ EConstruct run_args true; EGetBestServer st false ];
    [ EConstruct run_args true; EGetBestServer st true ];
    [ EConstruct run_args true; EGetBestServer st true; EDownload st false ];
    [ EConstruct run_args true; EGetBestServer st true; EDownload st true;
      EUpload st false ];
    [ EConstruct run_args true; EGetBestServer st true; EDownload st true;
      EUpload st true ] ].

(** The dictionary [run_speedtest] returns, in terms of what the library
    answered on client [st]. *)
Definition reports (w : World) (st : Speedtest) (r : results_dict) : Prop :=
  exists hd hu hp bps_down bps_up ip isp country server_name timestamp,
    w_download w hd st = inr bps_down /\
    w_upload w hu st = inr bps_up /\
    r = [ ("ip", ip); ("isp", isp); ("country", country);
          ("latency", format_float_2f (w_results_ping w hp st) ++ " ms");
          ("jitter", jitter_placeholder);
          ("packet_loss", packet_loss_placeholder);
          ("download", format_float_2f (to_mbps bps_down) ++ " Mbps");
          ("upload", format_float_2f (to_mbps bps_up) ++ " Mbps");
          ("server", server_name);
          ("timestamp", timestamp) ].

(** The stages of the specification's orchestrator that the script's calls
    stand for: [st.get_best_server()] discovers, probes and selects;
    building the dictionary ends with the clock read. *)
Inductive stage : Type :=
| Selecting
| MeasuringDownload
| MeasuringUpload
| Aggregating.

Definition stage_of (ev : event) : option stage :=
  match ev with
  | EGetBestServer _ _ => Some Selecting
  | EDownload _ _ => Some MeasuringDownload
  | EUpload _ _ => Some MeasuringUpload
  | ENow => Some Aggregating
  | _ => None
  end.

Definition stages (l : list event) : list stage := omap stage_of l.

Definition all_stages : list stage :=
  [Selecting; MeasuringDownload; MeasuringUpload; Aggregating].

(** The client a measurement is made on. *)
Definition measured_on (ev : event) : option Speedtest :=
  match ev with
  | EGetBestServer st _ | EDownload st _ | EUpload st _ => Some st
  | _ => None
  end.

Definition is_write (ev : event) : bool :=
  match ev with EWrite _ => true | _ => false end.

(** A library call that raised. *)
Definition failed_call (ev : event) : bool :=
  match ev with
  | EConstruct _ false | EGetBestServer _ false | EDownload _ false
  | EUpload _ false => true
  | _ => false
  end.

Section Runs.

Context {num : Type} {J : JsonLib num} (w : World) (args : Args).

(** The run completes: the library is there, every stage returns, and the
    results are saved when that was asked for. *)
Definition completes (s : state) : Prop :=
  w_import_speedtest w = None /\
  exists s1 r s2 s3 s4,
    check_library w s = (Ret true, s1) /\
    run_speedtest w (verbose args) s1 = (Ret r, s2) /\
    display_results r s2 = (Ret tt, s3) /\
    when (save args) (save_results (pyval_of_results r) results_file) s3 = (Ret tt, s4).

(** The runs of the program from [s]: how each ends, and in what state. *)
Inductive script_run (s : state) : outcome unit -> state -> Prop :=
| run_import_error e :
    w_import_speedtest w = Some e ->
    script_run s (Raised e) s
| run_init_error e line :
    w_import_speedtest w = None ->
    w_Speedtest w (log s) check_args = Some e ->
    check_library w s = (Exited 1, extend s [EConstruct check_args false; EPrint line]) ->
    script_run s (Exited 1) (extend s [EConstruct check_args false; EPrint line])
| run_measure_error s1 new :
    w_import_speedtest w = None ->
    s1 = extend s [EConstruct check_args true] ->
    check_library w s = (Ret true, s1) ->
    run_speedtest w (verbose args) s1 = (Exited 1, extend s1 new) ->
    In (calls new) (aborted_calls (run_client s1 (verbose args))) ->
    script_run s (Exited 1) (extend s1 new)
| run_shown s1 new r prints :
    w_import_speedtest w = None ->
    s1 = extend s [EConstruct check_args true] ->
    check_library w s = (Ret true, s1) ->
    run_speedtest w (verbose args) s1 = (Ret r, extend s1 new) ->
    calls new = measurement_calls (run_client s1 (verbose args)) ->
    reports w (run_client s1 (verbose args)) r ->
    display_results r (extend s1 new) = (Ret tt, extend s1 (new ++ prints)) ->
    calls prints = [] ->
    save args = false ->
    script_run s (Exited 0) (extend s1 (new ++ prints))
| run_saved s1 new r prints new' l :
    w_import_speedtest w = None ->
    s1 = extend s [EConstruct check_args true] ->
    check_library w s = (Ret true, s1) ->
    run_speedtest w (verbose args) s1 = (Ret r, extend s1 new) ->
    calls new = measurement_calls (run_client s1 (verbose args)) ->
    reports w (run_client s1 (verbose args)) r ->
    display_results r (extend s1 new) = (Ret tt, extend s1 (new ++ prints)) ->
    calls prints = [] ->
    save args = true ->
    save_results (pyval_of_results r) results_file (extend s1 (new ++ prints)) =
      (Ret tt, {| log := log s1 ++ new ++ prints ++ new';
                  fs := <[results_file := json_dumps (PList l)]> (fs s) |}) ->
    calls new' = [EWrite results_file] ->
    script_run s (Exited 0)
      {| log := log s1 ++ new ++ prints ++ new';
         fs := <[results_file := json_dumps (PList l)]> (fs s) |}
| run_save_error s1 new r prints new' e :
    w_import_speedtest w = None ->
    s1 = extend s [EConstruct check_args true] ->
    check_library w s = (Ret true, s1) ->
    run_speedtest w (verbose args) s1 = (Ret r, extend s1 new) ->
    calls new = measurement_calls (run_client s1 (verbose args)) ->
    reports w (run_client s1 (verbose args)) r ->
    display_results r (extend s1 new) = (Ret tt, extend s1 (new ++ prints)) ->
    calls prints = [] ->
    save args = true ->
    save_results (pyval_of_results r) results_file (extend s1 (new ++ prints)) =
      (Raised e, extend s1 (new ++ prints ++ new')) ->
    calls new' = [] ->
    script_run s (Raised e) (extend s1 (new ++ prints ++ new')).

(** What an observer of the process sees of a run from [s]: the exit
    status, the events the run adds to the log, the files it leaves. *)
Definition run_status (s : state) : Z := exit_status (script w args s).1.

Definition run_events (s : state) : list event :=
  drop (length (log s)) (log (script w args s).2).

Definition run_files (s : state) : gmap string string := fs (script w args s).2.

(** The library is missing, or a client cannot be made: the import of
    line 8 raises, the constructor raises in [check_library], or some
    construction of the run raises. *)
Definition library_unavailable (s : state) : Prop :=
  (exists e, w_import_speedtest w = Some e) \/
  (exists e, w_Speedtest w (log s) check_args = Some e) \/
  (exists a, EConstruct a false ∈ run_events s).

End Runs.

(** The events one call of [run_speedtest] adds to the log. *)
Definition measure_events (w : World) (verbose : bool) (s : state) : list event :=
  drop (length (log s)) (log (run_speedtest w verbose s).2).

(** ** Vocabulary for the rest of the script *)

(** The lines the script prints when it gives up (lines 24, 27, 101, 102
    and 105), and the exception of a missing key. *)
Definition not_found_line : string :=
  "Error: 'speedtestcli' library not found. Install it with: pip install speedtestcli - speedtest_equivalent.py:24".

Definition init_error_line : string :=
  "Error initializing speedtest library: {e} - speedtest_equivalent.py:27".

Definition specific_error_line (e : pyexc) : string :=
  "Speedtestspecific error: " ++ exc_msg e ++ " - speedtest_equivalent.py:101".

Definition tips_line : string :=
  "Tips: Check your internet connection, firewall, or try a different server. - speedtest_equivalent.py:102".

Definition unexpected_error_line (e : pyexc) : string :=
  "Unexpected error running speed test: " ++ exc_msg e ++ " - speedtest_equivalent.py:105".

Definition key_error (k : string) : pyexc := Exc KeyError ("'" ++ k ++ "'").

(** The keys of the dictionary literal of lines 82-93, in its order, and
    the keys [display_results] reads, in the order it reads them. *)
Definition record_keys : list string :=
  [ "ip"; "isp"; "country"; "latency"; "jitter"; "packet_loss"; "download";
    "upload"; "server"; "timestamp" ].

Definition display_keys : list string :=
  [ "download"; "upload"; "latency"; "jitter"; "packet_loss"; "server"; "isp";
    "ip"; "country"; "timestamp" ].

Definition has_key (r : results_dict) (k : string) : bool :=
  match assoc r k with Some _ => true | None => false end.

(** The first key [display_results] reads that [r] lacks. *)
Definition first_missing (r : results_dict) : option string :=
  List.find (fun k => negb (has_key r k)) display_keys.

(** How many of the keys [ks], from the first on, [r] has before one is
    missing. *)
Fixpoint present_prefix (r : results_dict) (ks : list string) : nat :=
  match ks with
  | [] => 0
  | k :: ks' => if has_key r k then S (present_prefix r ks') else 0
  end.

(** The title [display_results] prints on line 113. *)
Definition results_title : string :=
  "SPEEDTEST RESULTS (Powered by Ookla®) - speedtest_equivalent.py:113".

(** The events one call of [display_results] adds to the log. *)
Definition display_events (r : results_dict) (s : state) : list event :=
  drop (length (log s)) (log (display_results r s).2).

(** The state after saving [records] to [filename] one call after the
    other, as successive runs with [--save] do. *)
Definition save_each {num : Type} {J : JsonLib num}
    (records : list (pyval num)) (filename : string) (s : state) : state :=
  foldl (fun s r => (save_results r filename s).2) s records.

Definition is_list {num : Type} (v : pyval num) : bool :=
  match v with PList _ => true | _ => false end.

(** What the handlers of lines 100-106 print for the exception [e]. *)
Definition error_lines (e : pyexc) : list event :=
  if is_SpeedtestException e then
    [EPrint (specific_error_line e); EPrint tips_line]
  else [EPrint (unexpected_error_line e)].

(** The key line 57 fails on: the first of [name] and [host] that the
    server lacks. *)
Definition missing_server_key (server : gmap string string) : option string :=
  match server !! "name" with
  | None => Some "name"
  | Some _ =>
      match server !! "host" with
      | None => Some "host"
      | Some _ => None
      end
  end.

(** The key the dictionary literal of lines 82-93 fails on: the first
    subscript, in the order it evaluates them, that finds no entry in the
    configuration [cfg] or in the server [server]. *)
Definition missing_record_key (cfg : gmap string (gmap string string))
    (server : gmap string string) : option string :=
  match cfg !! "client" with
  | None => Some "client"
  | Some client =>
      match client !! "ip", client !! "isp", client !! "country", server !! "name" with
      | None, _, _, _ => Some "ip"
      | Some _, None, _, _ => Some "isp"
      | Some _, Some _, None, _ => Some "country"
      | Some _, Some _, Some _, None => Some "name"
      | Some _, Some _, Some _, Some _ => None
      end
  end.

(** Why a run of [run_speedtest] that started with the log [l] and has
    added the events [pre] stops with the exception [e]: the call it made
    last raised [e], answering from the history before it; or all calls so
    far returned and a subscript found no entry, that of line 57 in a
    verbose run right after the selection, or one of lines 83-91 after the
    upload. *)
Inductive cause (w : World) (verbose : bool) (l : list event) (st : Speedtest)
    (pre : list event) : pyexc -> Prop :=
| cause_construct e :
    last pre = Some (EConstruct run_args false) ->
    w_Speedtest w (l ++ removelast pre)%list run_args = Some e ->
    cause w verbose l st pre e
| cause_select e :
    last pre = Some (EGetBestServer st false) ->
    w_get_best_server w (l ++ removelast pre)%list st = inl e ->
    cause w verbose l st pre e
| cause_download e :
    last pre = Some (EDownload st false) ->
    w_download w (l ++ removelast pre)%list st = inl e ->
    cause w verbose l st pre e
| cause_upload e :
    last pre = Some (EUpload st false) ->
    w_upload w (l ++ removelast pre)%list st = inl e ->
    cause w verbose l st pre e
| cause_server_key server k :
    verbose = true ->
    last pre = Some (EGetBestServer st true) ->
    w_get_best_server w (l ++ removelast pre)%list st = inr server ->
    missing_server_key server = Some k ->
    cause w verbose l st pre (key_error k)
| cause_record_key k :
    last (calls pre) = Some (EUpload st true) ->
    missing_record_key (w_config w (l ++ pre)%list st)
      (w_results_server w (l ++ pre)%list st) = Some k ->
    cause w verbose l st pre (key_error k).

(** A log file [save_results] cannot go on from: its text reads as a JSON
    value that is no array, or [json.load] raises something other than
    [JSONDecodeError] on it. *)
Definition unusable_log {num : Type} {J : JsonLib num} (text : string) : Prop :=
  (exists v, json_loads text = inr v /\ is_list v = false) \/
  (exists e, json_loads text = inl e /\ is_JSONDecodeError e = false).

(** The json module on a log file that is no UTF-8 text: reading it raises
    [UnicodeDecodeError], a [ValueError] that is no [JSONDecodeError]. *)
Definition unreadable_json : JsonLib Z := {|
  json_loads := fun _ => inl (Exc OtherException "UnicodeDecodeError");
  json_dumps := PyJson.dumps
|}.






(** A log file left by an earlier tool: a JSON object, which is no
    array. *)
Definition object_log : string := "{}".

(** The server of [sample_world] without its host, and the world that
    hands it out. *)
Definition hostless_server : gmap string string := {[ "name" := "Springfield" ]}.

Definition hostless_world : World := {|
  w_import_speedtest := None;
  w_probes := [];
  w_Speedtest := w_Speedtest sample_world;
  w_get_best_server := fun _ _ => inr hostless_server;
  w_download := w_download sample_world;
  w_upload := w_upload sample_world;
  w_results_ping := w_results_ping sample_world;
  w_results_server := w_results_server sample_world;
  w_config := w_config sample_world;
  w_str_float := w_str_float sample_world;
  w_now_isoformat := w_now_isoformat sample_world
|}.

(** A world whose library hands back a configuration without the client
    entry. *)
Definition clientless_world : World := {|
  w_import_speedtest := None;
  w_probes := [];
  w_Speedtest := w_Speedtest sample_world;
  w_get_best_server := w_get_best_server sample_world;
  w_download := w_download sample_world;
  w_upload := w_upload sample_world;
  w_results_ping := w_results_ping sample_world;
  w_results_server := w_results_server sample_world;
  w_config := fun _ _ => ∅;
  w_str_float := w_str_float sample_world;
  w_now_isoformat := w_now_isoformat sample_world
|}.


(** * The json instance reads back what it writes *)

Module PyJsonFacts.

Import PyJson.

Local Close Scope string_scope.

(** Induction over values, with the hypothesis for every element of a list
    and every value of a dictionary. *)
Lemma pyval_nested_ind (P : pyval Z -> Prop)
    (HNone : P PNone)
    (HBool : forall b, P (PBool b))
    (HNum : forall z, P (PNum z))
    (HStr : forall s, P (PStr s))
    (HList : forall l, Forall P l -> P (PList l))
    (HDict : forall d, Forall (fun kv => P kv.2) d -> P (PDict d)) :
  forall v, P v.
Proof.
  fix IH 1. intros [| b | z | s | l | d].
  - exact HNone.
  - apply HBool.
  - apply HNum.
  - apply HStr.
  - apply HList. induction l as [|x l IHl]; constructor; [apply IH|exact IHl].
  - apply HDict. induction d as [|[k x] d IHd]; constructor; [apply IH|exact IHd].
Qed.

(** ** Strings *)

Lemma parse_chars_escape (c : ascii) (rest : list ascii) :
  parse_chars (escape_char c ++ rest) =
    match parse_chars rest with
    | Some (cs, r) => Some (c :: cs, r)
    | None => None
    end.
Proof.
  destruct c as [[] [] [] [] [] [] [] []]; reflexivity.
Qed.

Lemma parse_chars_escaped (cs rest : list ascii) :
  parse_chars (concat (map escape_char cs) ++ dquote :: rest) = Some (cs, rest).
Proof.
  induction cs as [|c cs IH]; [reflexivity|].
  simpl concat. rewrite <- app_assoc, parse_chars_escape, IH. reflexivity.
Qed.

Lemma parse_chars_quote (s : string) (rest : list ascii) :
  exists body, quote s ++ rest = dquote :: body /\
    parse_chars body = Some (chars s, rest).
Proof.
  exists (concat (map escape_char (chars s)) ++ dquote :: rest). split.
  - unfold quote. simpl. by rewrite <- app_assoc.
  - apply parse_chars_escaped.
Qed.

(** ** Numbers *)

Lemma uint_number_chars (d : Decimal.uint) :
  number_chars (chars (NilEmpty.string_of_uint d)).
Proof.
  induction d; simpl; constructor; try reflexivity; assumption.
Qed.

Lemma uint0_number_chars (d : Decimal.uint) :
  number_chars (chars (NilZero.string_of_uint d)).
Proof.
  destruct d; try exact (uint_number_chars _).
  constructor; [reflexivity|apply Forall_nil_2].
Qed.

Lemma str_Z_number_chars (z : Z) : number_chars (chars (str_Z z)).
Proof.
  unfold str_Z, NilZero.string_of_int.
  destruct (Z.to_int z) as [d|d]; [apply uint0_number_chars|].
  constructor; [reflexivity|apply uint0_number_chars].
Qed.

Lemma str_Z_nonempty (z : Z) : chars (str_Z z) <> [].
Proof.
  unfold str_Z, NilZero.string_of_int, NilZero.string_of_uint.
  destruct (Z.to_int z) as [d|d]; destruct d; discriminate.
Qed.

Lemma span_number_app (ds rest : list ascii) :
  number_chars ds -> terminated rest -> span_number (ds ++ rest) = (ds, rest).
Proof.
  intros Hds Hrest. induction Hds as [|c ds Hc _ IH]; simpl.
  - destruct rest as [|c rest]; [reflexivity|]. destruct Hrest as [Hc _].
    simpl. by rewrite Hc.
  - by rewrite Hc, IH.
Qed.

Lemma to_int_canonical (z : Z) :
  Z.to_int z <> Decimal.Pos Decimal.Nil /\ Z.to_int z <> Decimal.Neg Decimal.Nil.
Proof.
  destruct z as [|p|p]; simpl; split; try discriminate;
    intros [= H]; by apply DecimalPos.Unsigned.to_uint_nonnil in H.
Qed.

Lemma parse_number_str_Z (z : Z) (rest : list ascii) :
  terminated rest ->
  parse_number (chars (str_Z z) ++ rest) = Some (z, rest).
Proof.
  intros Hrest. unfold parse_number.
  rewrite (span_number_app _ _ (str_Z_number_chars z) Hrest).
  unfold chars. rewrite string_of_list_ascii_of_string.
  destruct (to_int_canonical z) as [Hp Hn].
  unfold str_Z at 1. rewrite (NilZero.isi _ Hp Hn), DecimalZ.of_to.
  assert (Hf : starts_fraction rest = false).
  { destruct rest as [|c rest]; [reflexivity|]. apply Hrest. }
  rewrite Hf, String.eqb_refl. reflexivity.
Qed.

(** ** Blanks and first characters *)

Lemma skip_ws_app (ws s : list ascii) : blanks ws -> skip_ws (ws ++ s) = skip_ws s.
Proof.
  intros Hws. induction Hws as [|c ws Hc _ IH]; [reflexivity|]. simpl. by rewrite Hc.
Qed.

Lemma blanks_pad (n : nat) : blanks (pad n).
Proof. induction n; constructor; [reflexivity|assumption]. Qed.

Lemma blanks_line (n : nat) : blanks (newline :: pad n).
Proof. constructor; [reflexivity|apply blanks_pad]. Qed.

Lemma number_char_opens (c : ascii) :
  is_number_char c = true ->
  opens_value c /\ Ascii.eqb c dquote = false /\ Ascii.eqb c "[" = false /\
  Ascii.eqb c "{" = false /\ Ascii.eqb "n" c = false /\ Ascii.eqb "t" c = false /\
  Ascii.eqb "f" c = false.
Proof.
  destruct c as [[] [] [] [] [] [] [] []]; intros H; try discriminate H;
    repeat split; reflexivity.
Qed.

Lemma str_Z_head (z : Z) :
  exists c body, chars (str_Z z) = c :: body /\ is_number_char c = true.
Proof.
  pose proof (str_Z_number_chars z) as Hn. pose proof (str_Z_nonempty z) as Hne.
  destruct (chars (str_Z z)) as [|c body]; [done|].
  exists c, body. split; [reflexivity|]. by inversion Hn.
Qed.

Lemma dump_head (indent : nat) (v : pyval Z) :
  exists c body, dump indent v = c :: body /\ opens_value c.
Proof.
  destruct v as [| [] | z | s | [|x xs] | [|[k x] d]];
    try (eexists _, _; split; [reflexivity|]; repeat split; reflexivity).
  destruct (str_Z_head z) as (c & body & Hc & Hnum).
  exists c, body. split; [exact Hc|]. by apply number_char_opens.
Qed.

Lemma skip_ws_value (ws rest : list ascii) (indent : nat) (v : pyval Z) :
  blanks ws -> skip_ws (ws ++ dump indent v ++ rest) = dump indent v ++ rest.
Proof.
  intros Hws. rewrite (skip_ws_app _ _ Hws).
  destruct (dump_head indent v) as (c & body & -> & Hc & _). simpl. by rewrite Hc.
Qed.

(** ** Atoms *)

Lemma parse_atom_number (z : Z) (rest : list ascii) :
  terminated rest -> parse_atom (chars (str_Z z) ++ rest) = Some (PNum z, rest).
Proof.
  intros Hrest. unfold parse_atom.
  rewrite (parse_number_str_Z z rest Hrest).
  destruct (str_Z_head z) as (c & body & -> & Hnum).
  apply number_char_opens in Hnum as (_ & _ & _ & _ & Hn & Ht & Hf).
  cbn -[Ascii.eqb parse_number]. by rewrite Hn, Ht, Hf.
Qed.

(** ** Values *)

Lemma blanks_close (n : nat) : blanks (close n).
Proof. apply blanks_line. Qed.

Lemma terminated_items (inner indent : nat) (xs : list (pyval Z)) (rest : list ascii) :
  terminated
    (flat_map (fun y => sep inner ++ dump inner y) xs
       ++ close indent ++ "]"%char :: rest).
Proof. destruct xs; simpl; split; reflexivity. Qed.

Lemma parse_elems_S (fuel : nat) (s : list ascii) :
  parse_elems (S fuel) s =
    match parse_value fuel s with
    | None => None
    | Some (v, r) =>
        match skip_ws r with
        | [] => None
        | c :: r' =>
            if Ascii.eqb c "," then
              match parse_elems fuel r' with
              | Some (vs, r'') => Some (v :: vs, r'')
              | None => None
              end
            else if Ascii.eqb c "]" then Some ([v], r')
            else None
        end
    end.
Proof. reflexivity. Qed.

Lemma skip_ws_cons (c : ascii) (s : list ascii) :
  is_ws c = false -> skip_ws (c :: s) = c :: s.
Proof. intros H. simpl. by rewrite H. Qed.

Lemma skip_ws_close (indent : nat) (c : ascii) (s : list ascii) :
  is_ws c = false -> skip_ws (close indent ++ c :: s) = c :: s.
Proof.
  intros H. rewrite (skip_ws_app _ _ (blanks_close indent)). by apply skip_ws_cons.
Qed.

Lemma parse_elems_items (indent : nat) (rest : list ascii) (xs : list (pyval Z)) :
  Forall reads_back xs ->
  forall x ws fuel,
    reads_back x ->
    S (cost x) + list_sum (map (fun y => S (cost y)) xs) <= fuel ->
    blanks ws ->
    parse_elems fuel
      (ws ++ dump (indent + 4) x
          ++ flat_map (fun y => sep (indent + 4) ++ dump (indent + 4) y) xs
          ++ close indent ++ "]"%char :: rest)
    = Some (x :: xs, rest).
Proof.
  induction 1 as [|y ys Hy _ IH]; intros x ws fuel Hx Hfuel Hws;
    (destruct fuel as [|fuel]; [simpl in Hfuel; lia|]); rewrite parse_elems_S.
  - rewrite Hx; [|simpl in Hfuel; lia|exact Hws|
                 apply (terminated_items (indent + 4) indent [] rest)].
    change (flat_map _ [] ++ ?t) with t.
    rewrite skip_ws_close by reflexivity. reflexivity.
  - rewrite Hx; [|simpl in Hfuel; lia|exact Hws|
                 apply (terminated_items (indent + 4) indent (y :: ys) rest)].
    change (flat_map ?f (y :: ys)) with (f y ++ flat_map f ys).
    rewrite <- !app_assoc.
    change (sep (indent + 4) ++ ?t) with (","%char :: (newline :: pad (indent + 4)) ++ t).
    rewrite skip_ws_cons by reflexivity.
    change (Ascii.eqb "," ",") with true. cbv beta iota.
    rewrite (IH y (newline :: pad (indent + 4)) fuel Hy); [reflexivity| |apply blanks_line].
    simpl in Hfuel |- *. lia.
Qed.

Lemma parse_members_S (fuel : nat) (s : list ascii) :
  parse_members (S fuel) s =
    match skip_ws s with
    | [] => None
    | c :: r =>
        if Ascii.eqb c dquote then
          match parse_chars r with
          | None => None
          | Some (k, r1) =>
              match skip_ws r1 with
              | [] => None
              | c1 :: r2 =>
                  if Ascii.eqb c1 ":" then
                    match parse_value fuel r2 with
                    | None => None
                    | Some (v, r3) =>
                        match skip_ws r3 with
                        | [] => None
                        | c3 :: r4 =>
                            if Ascii.eqb c3 "," then
                              match parse_members fuel r4 with
                              | Some (ms, r5) =>
                                  Some ((string_of_list_ascii k, v) :: ms, r5)
                              | None => None
                              end
                            else if Ascii.eqb c3 "}" then
                              Some ([(string_of_list_ascii k, v)], r4)
                            else None
                        end
                    end
                  else None
              end
          end
        else None
    end.
Proof. reflexivity. Qed.

Lemma terminated_members (inner indent : nat) (d : list (string * pyval Z))
    (rest : list ascii) :
  terminated
    (flat_map (fun kv => sep inner ++ quote kv.1 ++ chars ": " ++ dump inner kv.2) d
       ++ close indent ++ "}"%char :: rest).
Proof. destruct d; simpl; split; reflexivity. Qed.

(** A member: the key, the colon, the value. *)
Lemma parse_member (k : string) (x : pyval Z) (indent fuel : nat) (ws tail : list ascii) :
  reads_back x -> cost x <= fuel -> blanks ws -> terminated tail ->
  exists body,
    skip_ws (ws ++ quote k ++ chars ": " ++ dump indent x ++ tail) = dquote :: body /\
    exists r2,
      parse_chars body = Some (chars k, ":"%char :: r2) /\
      parse_value fuel r2 = Some (x, tail).
Proof.
  intros Hx Hfuel Hws Htail.
  destruct (parse_chars_quote k (chars ": " ++ dump indent x ++ tail))
    as (body & Hq & Hbody).
  exists body. split.
  - rewrite (skip_ws_app _ _ Hws), Hq. by apply skip_ws_cons.
  - exists (" "%char :: dump indent x ++ tail). split; [exact Hbody|].
    apply (Hx indent [" "%char] tail fuel Hfuel); [|exact Htail].
    constructor; [reflexivity|constructor].
Qed.

Lemma parse_members_items (indent : nat) (rest : list ascii) (d : list (string * pyval Z)) :
  Forall (fun kv => reads_back kv.2) d ->
  forall k x ws fuel,
    reads_back x ->
    S (cost x) + list_sum (map (fun kv => S (cost kv.2)) d) <= fuel ->
    blanks ws ->
    parse_members fuel
      (ws ++ quote k ++ chars ": " ++ dump (indent + 4) x
          ++ flat_map (fun kv => sep (indent + 4) ++ quote kv.1 ++ chars ": "
                                   ++ dump (indent + 4) kv.2) d
          ++ close indent ++ "}"%char :: rest)
    = Some ((k, x) :: d, rest).
Proof.
  induction 1 as [|[k' y] ys Hy _ IH]; intros k x ws fuel Hx Hfuel Hws;
    (destruct fuel as [|fuel]; [simpl in Hfuel; lia|]); rewrite parse_members_S.
  - destruct (parse_member k x (indent + 4) fuel ws
                (flat_map (fun kv => sep (indent + 4) ++ quote kv.1 ++ chars ": "
                                      ++ dump (indent + 4) kv.2) []
                   ++ close indent ++ "}"%char :: rest) Hx)
      as (body & Hskip & r2 & Hchars & Hval);
      [simpl in Hfuel; lia|exact Hws|
       apply (terminated_members (indent + 4) indent [] rest)|].
    rewrite Hskip. change (Ascii.eqb dquote dquote) with true. cbv beta iota.
    rewrite Hchars. rewrite skip_ws_cons by reflexivity.
    change (Ascii.eqb ":" ":") with true. cbv beta iota. rewrite Hval.
    change (flat_map _ [] ++ ?t) with t.
    rewrite skip_ws_close by reflexivity.
    change (Ascii.eqb "}" ",") with false. change (Ascii.eqb "}" "}") with true.
    cbv beta iota. unfold chars. by rewrite string_of_list_ascii_of_string.
  - destruct (parse_member k x (indent + 4) fuel ws
                (flat_map (fun kv => sep (indent + 4) ++ quote kv.1 ++ chars ": "
                                      ++ dump (indent + 4) kv.2) ((k', y) :: ys)
                   ++ close indent ++ "}"%char :: rest) Hx)
      as (body & Hskip & r2 & Hchars & Hval);
      [simpl in Hfuel; lia|exact Hws|
       apply (terminated_members (indent + 4) indent ((k', y) :: ys) rest)|].
    rewrite Hskip. change (Ascii.eqb dquote dquote) with true. cbv beta iota.
    rewrite Hchars. rewrite skip_ws_cons by reflexivity.
    change (Ascii.eqb ":" ":") with true. cbv beta iota. rewrite Hval.
    change (flat_map ?f ((k', y) :: ys)) with (f (k', y) ++ flat_map f ys).
    cbv beta. rewrite <- !app_assoc.
    change (sep (indent + 4) ++ ?t) with (","%char :: (newline :: pad (indent + 4)) ++ t).
    rewrite skip_ws_cons by reflexivity.
    change (Ascii.eqb "," ",") with true. cbv beta iota.
    change ((k', y).1) with k'. change ((k', y).2) with y.
    rewrite (IH k' y (newline :: pad (indent + 4)) fuel Hy); [| |apply blanks_line].
    + unfold chars. by rewrite string_of_list_ascii_of_string.
    + simpl in Hfuel |- *. lia.
Qed.

Lemma parse_value_S (fuel : nat) (s : list ascii) :
  parse_value (S fuel) s =
    match skip_ws s with
    | [] => None
    | c :: r =>
        if Ascii.eqb c dquote then
          match parse_chars r with
          | Some (cs, r') => Some (PStr (string_of_list_ascii cs), r')
          | None => None
          end
        else if Ascii.eqb c "[" then
          match skip_ws r with
          | [] => None
          | c2 :: r2 =>
              if Ascii.eqb c2 "]" then Some (PList [], r2)
              else
                match parse_elems fuel r with
                | Some (vs, r3) => Some (PList vs, r3)
                | None => None
                end
          end
        else if Ascii.eqb c "{" then
          match skip_ws r with
          | [] => None
          | c2 :: r2 =>
              if Ascii.eqb c2 "}" then Some (PDict [], r2)
              else
                match parse_members fuel r with
                | Some (ms, r3) => Some (PDict ms, r3)
                | None => None
                end
          end
        else parse_atom (c :: r)
    end.
Proof. reflexivity. Qed.

Lemma parse_value_skip (fuel : nat) (ws s : list ascii) :
  blanks ws -> parse_value fuel (ws ++ s) = parse_value fuel s.
Proof.
  intros Hws. destruct fuel as [|fuel]; [reflexivity|].
  by rewrite !parse_value_S, (skip_ws_app _ _ Hws).
Qed.

Lemma reads_back_atom (v : pyval Z) (text : string) :
  (forall indent, dump indent v = chars text) ->
  (forall rest fuel, parse_value (S fuel) (chars text ++ rest) = Some (v, rest)) ->
  reads_back v.
Proof.
  intros Hdump Hparse indent ws rest fuel Hfuel Hws _.
  destruct fuel as [|fuel]; [destruct v; simpl in Hfuel; lia|].
  rewrite (parse_value_skip _ _ _ Hws), Hdump. apply Hparse.
Qed.

Lemma reads_back_list (l : list (pyval Z)) : Forall reads_back l -> reads_back (PList l).
Proof.
  intros Hl. destruct Hl as [|x xs Hx Hxs].
  { apply (reads_back_atom _ "[]"); reflexivity. }
  intros indent ws rest fuel Hfuel Hws Hrest.
  destruct fuel as [|fuel]; [simpl in Hfuel; lia|].
  rewrite parse_value_S, (skip_ws_value _ _ _ _ Hws).
  change (dump indent (PList (x :: xs)))
    with ("["%char :: (newline :: pad (indent + 4)) ++ dump (indent + 4) x
            ++ flat_map (fun y => sep (indent + 4) ++ dump (indent + 4) y) xs
            ++ close indent ++ ["]"%char]).
  rewrite <- app_comm_cons, <- !app_assoc.
  change (["]"%char] ++ rest) with ("]"%char :: rest).
  change (Ascii.eqb "[" dquote) with false. change (Ascii.eqb "[" "[") with true.
  cbv beta iota.
  rewrite (skip_ws_value _ _ _ _ (blanks_line (indent + 4))).
  destruct (dump_head (indent + 4) x) as (c & body & Hc & _ & Hclose & _).
  rewrite Hc, <- app_comm_cons, Hclose, app_comm_cons, <- Hc.
  rewrite (parse_elems_items indent rest xs Hxs x _ fuel Hx);
    [reflexivity| |apply blanks_line].
  simpl in Hfuel. lia.
Qed.

Lemma reads_back_dict (d : list (string * pyval Z)) :
  Forall (fun kv => reads_back kv.2) d -> reads_back (PDict d).
Proof.
  intros Hd. destruct Hd as [|[k x] xs Hx Hxs].
  { apply (reads_back_atom _ "{}"); reflexivity. }
  intros indent ws rest fuel Hfuel Hws Hrest.
  destruct fuel as [|fuel]; [simpl in Hfuel; lia|].
  rewrite parse_value_S, (skip_ws_value _ _ _ _ Hws).
  change (dump indent (PDict ((k, x) :: xs)))
    with ("{"%char :: (newline :: pad (indent + 4)) ++ quote k ++ chars ": "
            ++ dump (indent + 4) x
            ++ flat_map (fun kv => sep (indent + 4) ++ quote kv.1 ++ chars ": "
                                     ++ dump (indent + 4) kv.2) xs
            ++ close indent ++ ["}"%char]).
  rewrite <- app_comm_cons, <- !app_assoc.
  change (["}"%char] ++ rest) with ("}"%char :: rest).
  change (Ascii.eqb "{" dquote) with false. change (Ascii.eqb "{" "[") with false.
  change (Ascii.eqb "{" "{") with true. cbv beta iota.
  rewrite (skip_ws_app _ _ (blanks_line (indent + 4))).
  destruct (parse_chars_quote k (chars ": " ++ dump (indent + 4) x
              ++ flat_map (fun kv => sep (indent + 4) ++ quote kv.1 ++ chars ": "
                                       ++ dump (indent + 4) kv.2) xs
              ++ close indent ++ "}"%char :: rest)) as (body & Hq & _).
  rewrite Hq. rewrite skip_ws_cons by reflexivity.
  change (Ascii.eqb dquote "}") with false. cbv beta iota. rewrite <- Hq.
  rewrite (parse_members_items indent rest xs Hxs k x _ fuel Hx);
    [reflexivity| |apply blanks_line].
  simpl in Hfuel. lia.
Qed.

(** Every value is read back from the text written for it. *)
Lemma all_read_back (v : pyval Z) : reads_back v.
Proof.
  induction v using pyval_nested_ind.
  - apply (reads_back_atom _ "null"); reflexivity.
  - destruct b; [apply (reads_back_atom _ "true")|apply (reads_back_atom _ "false")];
      reflexivity.
  - intros indent ws rest fuel Hfuel Hws Hrest.
    destruct fuel as [|fuel]; [simpl in Hfuel; lia|].
    rewrite parse_value_S, (skip_ws_value _ _ _ _ Hws).
    change (dump indent (PNum z)) with (chars (str_Z z)).
    destruct (str_Z_head z) as (c & body & Hc & Hnum).
    rewrite Hc, <- app_comm_cons.
    destruct (number_char_opens c Hnum) as (_ & Hq & Hl & Hd & _).
    rewrite Hq, Hl, Hd, app_comm_cons, <- Hc. by apply parse_atom_number.
  - intros indent ws rest fuel Hfuel Hws Hrest.
    destruct fuel as [|fuel]; [simpl in Hfuel; lia|].
    rewrite parse_value_S, (skip_ws_value _ _ _ _ Hws).
    change (dump indent (PStr s)) with (quote s).
    destruct (parse_chars_quote s rest) as (body & -> & Hbody).
    change (Ascii.eqb dquote dquote) with true. cbv beta iota. rewrite Hbody.
    unfold chars. by rewrite string_of_list_ascii_of_string.
  - by apply reads_back_list.
  - by apply reads_back_dict.
Qed.

(** ** Fuel *)

Lemma cost_items (inner : nat) (xs : list (pyval Z)) :
  Forall (fun y => forall i, cost y <= 2 * length (dump i y)) xs ->
  list_sum (map (fun y => S (cost y)) xs)
    <= 2 * length (flat_map (fun y => sep inner ++ dump inner y) xs).
Proof.
  induction 1 as [|y ys Hy _ IH]; [simpl; lia|].
  change (flat_map ?f (y :: ys)) with (f y ++ flat_map f ys).
  rewrite !length_app. specialize (Hy inner).
  assert (1 <= length (sep inner)) by (simpl; lia).
  change (list_sum (map ?f (y :: ys))) with (f y + list_sum (map f ys)).
  cbv beta. lia.
Qed.

Lemma cost_members (inner : nat) (d : list (string * pyval Z)) :
  Forall (fun kv => forall i, cost kv.2 <= 2 * length (dump i kv.2)) d ->
  list_sum (map (fun kv => S (cost kv.2)) d)
    <= 2 * length (flat_map (fun kv => sep inner ++ quote kv.1 ++ chars ": "
                                        ++ dump inner kv.2) d).
Proof.
  induction 1 as [|[k y] ys Hy _ IH]; [simpl; lia|].
  change (flat_map ?f ((k, y) :: ys)) with (f (k, y) ++ flat_map f ys).
  cbv beta. rewrite !length_app. specialize (Hy inner).
  assert (1 <= length (sep inner)) by (simpl; lia).
  change (list_sum (map ?f ((k, y) :: ys))) with (f (k, y) + list_sum (map f ys)).
  cbv beta. change ((k, y).2) with y in *. lia.
Qed.

(** Twice the length of the text is fuel enough to read it. *)
Lemma cost_le_length (v : pyval Z) : forall indent, cost v <= 2 * length (dump indent v).
Proof.
  induction v as [| b | z | s | l IH | d IH] using pyval_nested_ind; intros indent.
  - simpl. lia.
  - destruct b; simpl; lia.
  - destruct (dump_head indent (PNum z)) as (c & body & -> & _). simpl. lia.
  - destruct (dump_head indent (PStr s)) as (c & body & -> & _). simpl. lia.
  - destruct IH as [|x xs Hx Hxs]; [simpl; lia|].
    pose proof (cost_items (indent + 4) xs Hxs) as Hsum. specialize (Hx (indent + 4)).
    change (dump indent (PList (x :: xs)))
      with ("["%char :: (newline :: pad (indent + 4)) ++ dump (indent + 4) x
              ++ flat_map (fun y => sep (indent + 4) ++ dump (indent + 4) y) xs
              ++ close indent ++ ["]"%char]).
    change (cost (PList (x :: xs)))
      with (S (S (cost x) + list_sum (map (fun y => S (cost y)) xs))).
    rewrite length_cons, !length_app. lia.
  - destruct IH as [|[k x] xs Hx Hxs]; [simpl; lia|].
    pose proof (cost_members (indent + 4) xs Hxs) as Hsum. specialize (Hx (indent + 4)).
    change (dump indent (PDict ((k, x) :: xs)))
      with ("{"%char :: (newline :: pad (indent + 4)) ++ quote k ++ chars ": "
              ++ dump (indent + 4) x
              ++ flat_map (fun kv => sep (indent + 4) ++ quote kv.1 ++ chars ": "
                                       ++ dump (indent + 4) kv.2) xs
              ++ close indent ++ ["}"%char]).
    change (cost (PDict ((k, x) :: xs)))
      with (S (S (cost x) + list_sum (map (fun kv => S (cost kv.2)) xs))).
    rewrite length_cons, !length_app. change ((k, x).2) with x in Hx. lia.
Qed.

(** The reader gives back every value the writer wrote. *)
Lemma loads_dumps (v : pyval Z) : loads (dumps v) = inr v.
Proof.
  unfold loads, dumps, chars. rewrite list_ascii_of_string_of_list_ascii.
  pose proof (all_read_back v 0 [] [] (2 * length (dump 0 v) + 2)) as H.
  rewrite app_nil_l, app_nil_r in H. rewrite H; [reflexivity| |constructor|exact I].
  pose proof (cost_le_length v 0). lia.
Qed.

End PyJsonFacts.

(** * The selector of the specification *)

Module SelectorFacts.

Import Selector.

Local Close Scope string_scope.

Lemma ordering_Qcompare : ordering Qcompare.
Proof.
  split.
  - intros a b. symmetry. apply Qcompare_antisym.
  - intros a b c.
    destruct (Qcompare_spec a b), (Qcompare_spec b c); try exact I;
      match goal with
      | |- (?x ?= ?y)%Q = Eq => apply (proj1 (Qeq_alt x y))
      | |- (?x ?= ?y)%Q = Lt => apply (proj1 (Qlt_alt x y))
      | |- (?x ?= ?y)%Q = Gt => apply (proj1 (Qgt_alt x y))
      end; lra.
Qed.

Lemma ordering_compare_avg : ordering compare_avg.
Proof.
  destruct ordering_Qcompare as [Hsym Hch]. split.
  - intros [a|] [b|]; simpl; try reflexivity. apply Hsym.
  - intros [a|] [b|] [c|]; simpl; try reflexivity; try apply Hch;
      destruct (_ ?= _)%Q; reflexivity || exact I.
Qed.

Lemma ordering_lex {A} (c1 c2 : A -> A -> comparison) :
  ordering c1 -> ordering c2 -> ordering (fun a b => lex (c1 a b) (c2 a b)).
Proof.
  intros [Hsym1 Hch1] [Hsym2 Hch2]. split.
  - intros a b. rewrite Hsym1, Hsym2. unfold lex. by destruct (c1 a b).
  - intros a b c. specialize (Hch1 a b c). specialize (Hch2 a b c). unfold lex.
    destruct (c1 a b), (c1 b c); try rewrite Hch1; simpl;
      destruct (c2 a b), (c2 b c); simpl in *; done.
Qed.

Lemma ordering_on {A B} (f : A -> B) (cmp : B -> B -> comparison) :
  ordering cmp -> ordering (fun a b => cmp (f a) (f b)).
Proof.
  intros [Hsym Hch]. split; [intros a b; apply Hsym|intros a b c; apply Hch].
Qed.

Lemma ordering_compare_rank : ordering compare_rank.
Proof.
  unfold compare_rank.
  apply (ordering_lex (fun a b => (loss_ratio a.2 ?= loss_ratio b.2)%Q)).
  - apply (ordering_on (fun a : Server * LatencyStats => loss_ratio a.2)), ordering_Qcompare.
  - apply (ordering_lex (fun a b => compare_avg (avg_ms a.2) (avg_ms b.2))).
    + apply (ordering_on (fun a : Server * LatencyStats => avg_ms a.2)), ordering_compare_avg.
    + apply (ordering_on (fun a : Server * LatencyStats => distance_km a.1)), ordering_Qcompare.
Qed.

Lemma rank_le_refl (a : Server * LatencyStats) : rank_le a a.
Proof.
  unfold rank_le. destruct ordering_compare_rank as [Hsym _].
  specialize (Hsym a a). destruct (compare_rank a a); simpl in Hsym; congruence.
Qed.

Lemma rank_le_trans (a b c : Server * LatencyStats) :
  rank_le a b -> rank_le b c -> rank_le a c.
Proof.
  unfold rank_le. destruct ordering_compare_rank as [_ Hch]. specialize (Hch a b c).
  destruct (compare_rank a b), (compare_rank b c); try congruence.
Qed.

Lemma rank_not_lt_le (a b : Server * LatencyStats) :
  compare_rank a b <> Lt -> rank_le b a.
Proof.
  unfold rank_le. destruct ordering_compare_rank as [Hsym _]. rewrite (Hsym a b).
  destruct (compare_rank a b); simpl; congruence.
Qed.

Lemma rank_lt_le (a b : Server * LatencyStats) : compare_rank a b = Lt -> rank_le a b.
Proof. unfold rank_le. congruence. Qed.

(** [best_of] returns a member that ranks before or with every member, and
    strictly before every member that comes earlier in the list. *)
Lemma best_of_least (rest : list (Server * LatencyStats)) :
  forall best,
    let r := best_of best rest in
    r ∈ best :: rest /\ forall c, c ∈ best :: rest -> rank_le r c.
Proof.
  induction rest as [|c rest IH]; intros best; simpl.
  - split; [apply list_elem_of_here|].
    intros c Hc%list_elem_of_singleton. subst. apply rank_le_refl.
  - destruct (compare_rank c best) eqn:Hcmp.
    + destruct (IH best) as [Hin Hle]. split.
      * apply elem_of_cons in Hin as [->|Hin]; [apply list_elem_of_here|].
        by do 2 apply list_elem_of_further.
      * intros x Hx. apply elem_of_cons in Hx as [->|Hx]; [apply Hle, list_elem_of_here|].
        apply elem_of_cons in Hx as [->|Hx].
        -- apply rank_le_trans with best; [apply Hle, list_elem_of_here|].
           apply rank_not_lt_le. rewrite Hcmp. discriminate.
        -- by apply Hle, list_elem_of_further.
    + destruct (IH c) as [Hin Hle]. split.
      * by apply list_elem_of_further.
      * intros x Hx. apply elem_of_cons in Hx as [->|Hx]; [|by apply Hle].
        apply rank_le_trans with c; [apply Hle, list_elem_of_here|by apply rank_lt_le].
    + destruct (IH best) as [Hin Hle]. split.
      * apply elem_of_cons in Hin as [->|Hin]; [apply list_elem_of_here|].
        by do 2 apply list_elem_of_further.
      * intros x Hx. apply elem_of_cons in Hx as [->|Hx]; [apply Hle, list_elem_of_here|].
        apply elem_of_cons in Hx as [->|Hx].
        -- apply rank_le_trans with best; [apply Hle, list_elem_of_here|].
           apply rank_not_lt_le. rewrite Hcmp. discriminate.
        -- by apply Hle, list_elem_of_further.
Qed.

Lemma elem_of_candidates (servers : list Server) (stats : gmap nat LatencyStats)
    (s : Server) (st : LatencyStats) :
  (s, st) ∈ candidates servers stats <-> s ∈ servers /\ stats !! srv_id s = Some st.
Proof.
  unfold candidates. rewrite list_elem_of_omap. split.
  - intros (s' & Hin & Hs). destruct (stats !! srv_id s') eqn:E; [|discriminate].
    by injection Hs as -> ->.
  - intros [Hin Hst]. exists s. split; [done|]. by rewrite Hst.
Qed.

Lemma rank_le_lt (a b c : Server * LatencyStats) :
  rank_le a b -> compare_rank b c = Lt -> compare_rank a c = Lt.
Proof.
  unfold rank_le. destruct ordering_compare_rank as [_ Hch]. specialize (Hch a b c).
  intros Hab Hbc. rewrite Hbc in Hch. destruct (compare_rank a b); congruence.
Qed.

Lemma rank_lt_le_lt (a b c : Server * LatencyStats) :
  compare_rank a b = Lt -> rank_le b c -> compare_rank a c = Lt.
Proof.
  unfold rank_le. destruct ordering_compare_rank as [_ Hch]. specialize (Hch a b c).
  intros Hab Hbc. rewrite Hab in Hch. destruct (compare_rank b c); congruence.
Qed.

(** Ties go to the earlier candidate: everything listed before the chosen
    one ranks strictly after it. *)
Lemma best_of_first (rest : list (Server * LatencyStats)) :
  forall best,
    exists pre post,
      best :: rest = pre ++ best_of best rest :: post /\
      forall x, x ∈ pre -> compare_rank (best_of best rest) x = Lt.
Proof.
  induction rest as [|c rest IH]; intros best; simpl.
  - exists [], []. split; [reflexivity|]. intros x Hx. by apply elem_of_nil in Hx.
  - destruct (best_of_least rest c) as [_ Hle_c].
    destruct (compare_rank c best) eqn:Hcmp.
    + destruct (IH best) as (pre & post & Heq & Hpre).
      destruct pre as [|b pre]; simpl in Heq.
      * injection Heq as Hb Hrest. exists [], (c :: post). rewrite <- Hb. simpl.
        split; [congruence|]. intros x Hx. by apply elem_of_nil in Hx.
      * injection Heq as <- Hrest. exists (best :: c :: pre), post. simpl.
        split; [congruence|].
        intros x Hx. apply elem_of_cons in Hx as [->|Hx]; [apply Hpre, list_elem_of_here|].
        apply elem_of_cons in Hx as [->|Hx]; [|by apply Hpre, list_elem_of_further].
        apply rank_lt_le_lt with best; [apply Hpre, list_elem_of_here|].
        apply rank_not_lt_le. rewrite Hcmp. discriminate.
    + destruct (IH c) as (pre & post & Heq & Hpre).
      exists (best :: pre), post. simpl. split; [congruence|].
      intros x Hx. apply elem_of_cons in Hx as [->|Hx]; [|by apply Hpre].
      apply rank_le_lt with c; [apply Hle_c, list_elem_of_here|exact Hcmp].
    + destruct (IH best) as (pre & post & Heq & Hpre).
      destruct pre as [|b pre]; simpl in Heq.
      * injection Heq as Hb Hrest. exists [], (c :: post). rewrite <- Hb. simpl.
        split; [congruence|]. intros x Hx. by apply elem_of_nil in Hx.
      * injection Heq as <- Hrest. exists (best :: c :: pre), post. simpl.
        split; [congruence|].
        intros x Hx. apply elem_of_cons in Hx as [->|Hx]; [apply Hpre, list_elem_of_here|].
        apply elem_of_cons in Hx as [->|Hx]; [|by apply Hpre, list_elem_of_further].
        apply rank_lt_le_lt with best; [apply Hpre, list_elem_of_here|].
        apply rank_not_lt_le. rewrite Hcmp. discriminate.
Qed.

(** C5. The selector of the specification.  Equal inputs give equal
    answers.  A server it returns is a reachable candidate that ranks
    before or with every reachable candidate under ascending loss ratio,
    then ascending average latency, then ascending distance, and strictly
    before every reachable candidate listed ahead of it; it fails with
    [NoReachableServer] exactly when no candidate is reachable. *)
Theorem select_deterministic_minimal (servers : list Server)
    (stats_by_server : gmap nat LatencyStats) :
  (forall servers' stats', servers' = servers -> stats' = stats_by_server ->
     select servers' stats' = select servers stats_by_server) /\
  (forall s, select servers stats_by_server = inr s ->
     exists st,
       s ∈ servers /\ stats_by_server !! srv_id s = Some st /\
       reachable (s, st) = true /\
       (forall c, c ∈ eligible servers stats_by_server -> rank_le (s, st) c) /\
       exists pre post,
         eligible servers stats_by_server = pre ++ (s, st) :: post /\
         forall c, c ∈ pre -> rank_lt (s, st) c) /\
  (select servers stats_by_server = inl NoReachableServer <->
     forall c, c ∈ candidates servers stats_by_server -> reachable c = false).
Proof.
  split; [by intros ? ? -> ->|]. unfold select. fold (eligible servers stats_by_server).
  destruct (eligible servers stats_by_server) as [|c rest] eqn:Hel; split.
  - intros s [=].
  - split; [|done]. intros _ c Hc. destruct (reachable c) eqn:Hr; [|done].
    assert (Hin : c ∈ eligible servers stats_by_server).
    { unfold eligible. apply list_elem_of_filter. done. }
    rewrite Hel in Hin. by apply elem_of_nil in Hin.
  - intros s [= <-].
    destruct (best_of_least rest c) as [Hin Hle].
    destruct (best_of_first rest c) as (pre & post & Heq & Hpre).
    destruct (best_of c rest) as [s st] eqn:Hbest. exists st.
    rewrite <- Hel in Hin. unfold eligible in Hin.
    apply list_elem_of_filter in Hin as [Hreach Hcand].
    apply elem_of_candidates in Hcand as [Hs Hst].
    repeat split; try done. exists pre, post. split; [exact Heq|exact Hpre].
  - split; [discriminate|]. intros Hnone.
    assert (Hin : c ∈ eligible servers stats_by_server) by (rewrite Hel; apply list_elem_of_here).
    unfold eligible in Hin. apply list_elem_of_filter in Hin as [Hreach Hcand].
    rewrite (Hnone c Hcand) in Hreach. discriminate.
Qed.

(** The scenario of the specification: the second server is chosen, the
    one of least average latency among those without loss. *)
Example select_scenario :
  exists s, select scenario_servers scenario_stats = inr s /\
    scenario_servers !! 1 = Some s /\ srv_name s = "B"%string.
Proof. eexists. vm_compute. repeat split; reflexivity. Qed.

End SelectorFacts.
(** * Properties *)

Local Close Scope string_scope.

(** ** Stepping through statements *)

Ltac py_unfold :=
  unfold mbind, mret, Py_bind, Py_ret, raise, sys_exit, try_except, when,
    print, emit, history, lift_result in *.

Section SaveResults.

Context {num : Type} {J : JsonLib num}.

Lemma path_exists_true (filename text : string) (s : state) :
  fs s !! filename = Some text -> path_exists filename s = (Ret true, s).
Proof.
  intros H. unfold path_exists. rewrite bool_decide_eq_true_2; [done|].
  rewrite H. by eexists.
Qed.

Lemma path_exists_false (filename : string) (s : state) :
  fs s !! filename = None -> path_exists filename s = (Ret false, s).
Proof.
  intros H. unfold path_exists. rewrite bool_decide_eq_false_2; [done|].
  rewrite H. by intros [? ?].
Qed.

(** Saving to a file that holds a list: the list with the record after it
    is written, and one line is printed. *)
Lemma save_results_list (results : pyval num) (filename text : string)
    (old : list (pyval num)) (s : state) :
  fs s !! filename = Some text ->
  json_loads text = inr (PList old) ->
  save_results results filename s =
    (Ret tt,
     {| log := log s ++ [EWrite filename; EPrint (saved_line filename (S (length old)))];
        fs := <[filename := json_dumps (PList (old ++ [results]))]> (fs s) |}).
Proof.
  intros Hfile Hload. unfold save_results, mbind, Py_bind.
  rewrite (path_exists_true _ _ _ Hfile).
  unfold try_except, json_load_file. rewrite Hfile, Hload. simpl.
  unfold json_dump_file, print, emit, saved_line. simpl.
  rewrite length_app, Nat.add_1_r, <- app_assoc. reflexivity.
Qed.

(** Saving to a file whose text [json.load] rejects with a
    [JSONDecodeError]: a warning is printed and the record alone is
    written. *)
Lemma save_results_corrupted (results : pyval num) (filename text : string)
    (e : pyexc) (s : state) :
  fs s !! filename = Some text ->
  json_loads text = inl e ->
  is_JSONDecodeError e = true ->
  save_results results filename s =
    (Ret tt,
     {| log := log s ++ [EPrint (corrupted_warning filename); EWrite filename;
                         EPrint (saved_line filename 1)];
        fs := <[filename := json_dumps (PList [results])]> (fs s) |}).
Proof.
  intros Hfile Hload He. unfold save_results, mbind, Py_bind.
  rewrite (path_exists_true _ _ _ Hfile).
  unfold try_except, json_load_file. rewrite Hfile, Hload. simpl. rewrite He. simpl.
  unfold json_dump_file, print, emit, saved_line, corrupted_warning. simpl.
  rewrite <- !app_assoc. reflexivity.
Qed.

(** Saving when there is no file: the record alone is written. *)
Lemma save_results_new (results : pyval num) (filename : string) (s : state) :
  fs s !! filename = None ->
  save_results results filename s =
    (Ret tt,
     {| log := log s ++ [EWrite filename; EPrint (saved_line filename 1)];
        fs := <[filename := json_dumps (PList [results])]> (fs s) |}).
Proof.
  intros Hfile. unfold save_results, mbind, Py_bind.
  rewrite (path_exists_false _ _ Hfile). simpl.
  unfold json_dump_file, print, emit, saved_line. simpl.
  rewrite <- !app_assoc. reflexivity.
Qed.


(** C9. Saving a record when the log file does not exist: [save_results]
    returns, the file then holds the JSON text of the array of that one
    record, and what the call did is one write and one printed line, which
    is not the warning. *)
Theorem save_results_creates (results : pyval num) (filename : string) (s : state) :
  json_round_trips ->
  fs s !! filename = None ->
  (save_results results filename s).1 = Ret tt /\
  fs (save_results results filename s).2 !! filename = Some (json_dumps (PList [results])) /\
  json_loads (json_dumps (PList [results])) = inr (PList [results]) /\
  save_events results filename s = [EWrite filename; EPrint (saved_line filename 1)] /\
  EPrint (corrupted_warning filename) ∉ save_events results filename s.
Proof.
  intros Hjson Hfile. unfold save_events. rewrite (save_results_new _ _ _ Hfile). simpl.
  split; [reflexivity|]. split; [apply lookup_insert_eq|]. split; [apply Hjson|].
  rewrite drop_app_length. split; [reflexivity|].
  intros Hin. apply elem_of_cons in Hin as [Hin|Hin]; [discriminate Hin|].
  apply list_elem_of_singleton in Hin. injection Hin as Hin.
  unfold corrupted_warning, saved_line, nl in Hin. simpl in Hin. discriminate Hin.
Qed.

End SaveResults.

Section RunSpeedtest.

Context (w : World).

Ltac destruct_oracle :=
  match goal with
  | |- context [match w_Speedtest w ?h ?a with _ => _ end] =>
      destruct (w_Speedtest w h a) eqn:?
  | |- context [match w_get_best_server w ?h ?a with _ => _ end] =>
      destruct (w_get_best_server w h a) eqn:?
  | |- context [match w_download w ?h ?a with _ => _ end] =>
      destruct (w_download w h a) eqn:?
  | |- context [match w_upload w ?h ?a with _ => _ end] =>
      destruct (w_upload w h a) eqn:?
  | |- context [match @lookup _ _ _ _ ?k ?m with _ => _ end] =>
      destruct (@lookup _ _ _ _ k m) eqn:?
  | |- context [if is_SpeedtestException ?e then _ else _] =>
      destruct (is_SpeedtestException e)
  end.

(** How a call of [run_speedtest] ends: it exits with status 1 after one of
    the aborted call sequences, or returns the record after the full one.
    It adds events and leaves the files alone. *)
Lemma run_speedtest_outcomes (verbose : bool) (s : state) :
  let st := run_client s verbose in
  exists o new, run_speedtest w verbose s = (o, extend s new) /\
    ((o = Exited 1 /\ In (calls new) (aborted_calls st)) \/
     (calls new = measurement_calls st /\ exists r, o = Ret r /\ reports w st r)).
Proof.
  intros st. subst st. unfold run_client, extend, reports.
  unfold run_speedtest, Speedtest_new, get_best_server, download, upload,
    results_ping, results_server, config, now_isoformat, getitem, run_args.
  py_unfold.
  destruct s as [l f]. destruct verbose; simpl.
  all: repeat (destruct_oracle; simpl).
  all: repeat match goal with
         | H : context [length (_ ++ _)] |- _ => rewrite length_app in H; simpl in H
         end.
  all: rewrite <- ?app_assoc; simpl; rewrite ?length_app; simpl; rewrite ?Nat.add_0_r.
  all: eexists _, _; (split; [reflexivity|]); unfold calls; simpl.
  all: try (left; split; [reflexivity|]; tauto).
  all: right; (split; [reflexivity|]).
  all: eexists; split; [reflexivity|].
  all: eexists _, _, _, _, _, _, _, _, _, _; split; [eassumption|split; [eassumption|reflexivity]].
Qed.

End RunSpeedtest.

Section Stages.

Context {num : Type} {J : JsonLib num} (w : World).

(** [check_library] returns when the construction does, and exits with
    status 1 when it raises, whatever it raises. *)
Lemma check_library_outcomes (s : state) :
  (w_Speedtest w (log s) check_args = None /\
   check_library w s = (Ret true, extend s [EConstruct check_args true])) \/
  (exists e line, w_Speedtest w (log s) check_args = Some e /\
   check_library w s = (Exited 1, extend s [EConstruct check_args false; EPrint line])).
Proof.
  unfold check_library, Speedtest_new, extend. py_unfold. simpl.
  destruct (w_Speedtest w (log s) _) as [e|] eqn:He; simpl.
  - right. exists e.
    destruct (is_ImportError e); simpl; rewrite <- app_assoc; simpl; eauto.
  - left. split; reflexivity.
Qed.

(** [display_results] on a record with all ten keys only prints. *)
Lemma display_results_full (r : results_dict) (s : state) :
  full_record r ->
  exists prints, display_results r s = (Ret tt, extend s prints) /\ calls prints = [].
Proof.
  intros (ip & isp & country & latency & jitter & packet_loss & dl & ul & server & ts & ->).
  unfold display_results, results_get, extend. py_unfold. simpl.
  rewrite <- ?app_assoc. simpl. eexists. split; [reflexivity|]. reflexivity.
Qed.

(** [save_results] either writes a list to the file and returns, or raises
    without writing: when [json.load] raises something other than
    [JSONDecodeError], or hands back a value that is no list. *)
Lemma save_results_outcomes (results : pyval num) (filename : string) (s : state) :
  (exists new l, save_results results filename s =
      (Ret tt, {| log := log s ++ new; fs := <[filename := json_dumps (PList l)]> (fs s) |})
      /\ calls new = [EWrite filename]) \/
  (exists e new, save_results results filename s = (Raised e, extend s new) /\ calls new = []).
Proof.
  unfold save_results, json_load_file, json_dump_file, append, extend.
  py_unfold.
  destruct (fs s !! filename) as [text|] eqn:Hfile.
  - rewrite (path_exists_true _ _ _ Hfile). cbv beta. rewrite Hfile.
    destruct (json_loads text) as [e|v] eqn:Hload; simpl.
    + destruct (is_JSONDecodeError e); simpl.
      * left. rewrite <- ?app_assoc. simpl. eexists _, _. split; [reflexivity|]. reflexivity.
      * right. exists e, []. rewrite app_nil_r. destruct s; split; reflexivity.
    + destruct v; simpl;
        try (right; eexists _, []; rewrite app_nil_r; destruct s; split; reflexivity).
      left. rewrite <- ?app_assoc. simpl. eexists _, _. split; [reflexivity|]. reflexivity.
  - rewrite (path_exists_false _ _ Hfile). simpl.
    left. rewrite <- ?app_assoc. simpl. eexists _, _. split; [reflexivity|]. reflexivity.
Qed.

End Stages.

Lemma extend_extend (s : state) (a b : list event) :
  extend (extend s a) b = extend s (a ++ b).
Proof. unfold extend. simpl. by rewrite app_assoc. Qed.

Lemma reports_full_record (w : World) (st : Speedtest) (r : results_dict) :
  reports w st r -> full_record r.
Proof.
  intros (hd & hu & hp & bd & bu & ip & isp & country & sn & ts & _ & _ & ->).
  unfold full_record. eauto 12.
Qed.

Section ScriptRuns.

Context {num : Type} {J : JsonLib num} (w : World) (args : Args).

(** Every run of the program is one of the six of [script_run]. *)
Lemma script_runs (s : state) :
  script_run w args s (script w args s).1 (script w args s).2.
Proof.
  unfold script.
  destruct (w_import_speedtest w) as [e|] eqn:Himport.
  { simpl. by apply run_import_error. }
  unfold main, mbind, Py_bind, when, sys_exit.
  destruct (check_library_outcomes w s) as [[Hc Hcheck]|(e & line & Hc & Hcheck)];
    rewrite Hcheck; [|simpl; by eapply run_init_error].
  set (s1 := extend s [EConstruct check_args true]) in *.
  destruct (run_speedtest_outcomes w (verbose args) s1) as (o & new & Hrun & Hshape).
  rewrite Hrun.
  destruct Hshape as [[-> Hcalls]|(Hcalls & r & -> & Hrep)].
  { exact (run_measure_error w args s s1 new Himport eq_refl Hcheck Hrun Hcalls). }
  destruct (display_results_full r (extend s1 new) (reports_full_record _ _ _ Hrep))
    as (prints & Hdisp & Hprints).
  rewrite extend_extend in Hdisp. rewrite Hdisp.
  destruct (save args) eqn:Hsave.
  - destruct (save_results_outcomes (pyval_of_results r) results_file (extend s1 (new ++ prints)))
      as [(new' & l & Hs & Hw)|(e & new' & Hs & Hw)].
    + assert (Hs' : save_results (pyval_of_results r) results_file (extend s1 (new ++ prints)) =
        (Ret tt, {| log := log s1 ++ new ++ prints ++ new';
                    fs := <[results_file := json_dumps (PList l)]> (fs s) |})).
      { rewrite Hs. simpl. by rewrite <- !app_assoc. }
      rewrite Hs'.
      exact (run_saved w args s s1 new r prints new' l Himport eq_refl Hcheck Hrun
               Hcalls Hrep Hdisp Hprints Hsave Hs' Hw).
    + rewrite extend_extend, <- app_assoc in Hs. rewrite Hs.
      exact (run_save_error w args s s1 new r prints new' e Himport eq_refl Hcheck Hrun
               Hcalls Hrep Hdisp Hprints Hsave Hs Hw).
  - exact (run_shown w args s s1 new r prints Himport eq_refl Hcheck Hrun
             Hcalls Hrep Hdisp Hprints Hsave).
Qed.

End ScriptRuns.

(** ** Events, calls and stages *)

Lemma calls_app (a b : list event) : calls (a ++ b) = calls a ++ calls b.
Proof. unfold calls. apply List.filter_app. Qed.

Lemma elem_of_calls (ev : event) (l : list event) :
  ev ∈ l -> is_print ev = false -> In ev (calls l).
Proof.
  intros Hin Hp. unfold calls. apply List.filter_In. split.
  - by apply list_elem_of_In.
  - by rewrite Hp.
Qed.

Lemma calls_elem_of (ev : event) (l : list event) : In ev (calls l) -> ev ∈ l.
Proof.
  unfold calls. intros H. apply List.filter_In in H as [H _]. by apply list_elem_of_In.
Qed.

Lemma stages_calls (l : list event) : stages (calls l) = stages l.
Proof.
  unfold stages, calls. induction l as [|ev l IH]; [done|].
  destruct ev; cbn in *; rewrite ?IH; reflexivity.
Qed.

Lemma drop_log (s : state) (new : list event) :
  drop (length (log s)) (log (extend s new)) = new.
Proof. unfold extend. simpl. by rewrite drop_app_length. Qed.

Lemma failed_call_not_print (ev : event) : failed_call ev = true -> is_print ev = false.
Proof. by destruct ev. Qed.

Lemma measured_on_not_print (ev : event) (st : Speedtest) :
  measured_on ev = Some st -> is_print ev = false.
Proof. by destruct ev. Qed.

Ltac in_cases H :=
  simpl in H;
  repeat (let E := fresh "E" in
          destruct H as [E|H]; [try discriminate E; simplify_eq|]);
  try done.

Section ScriptProperties.

Context {num : Type} {J : JsonLib num} (w : World) (args : Args).

(** The events of each kind of run, without the prints. *)
Lemma script_run_calls (s : state) (o : outcome unit) (s' : state) :
  script_run w args s o s' ->
  exists new, log s' = log s ++ new /\
    let st := run_client (extend s [EConstruct check_args true]) (verbose args) in
    ((exists e, o = Raised e /\ new = [] /\ fs s' = fs s /\ w_import_speedtest w = Some e) \/
     (o = Exited 1 /\ calls new = [EConstruct check_args false] /\ fs s' = fs s) \/
     (o = Exited 1 /\ fs s' = fs s /\
      exists c, calls new = EConstruct check_args true :: c /\ In c (aborted_calls st)) \/
     (o = Exited 0 /\ fs s' = fs s /\ save args = false /\
      calls new = EConstruct check_args true :: measurement_calls st) \/
     (o = Exited 0 /\ save args = true /\
      calls new = EConstruct check_args true :: measurement_calls st ++ [EWrite results_file]) \/
     (exists e, o = Raised e /\ fs s' = fs s /\ save args = true /\
      calls new = EConstruct check_args true :: measurement_calls st)).
Proof.
  intros Hrun. destruct Hrun; subst; unfold extend; simpl.
  - exists []. rewrite app_nil_r. split; [done|]. left. eauto.
  - eexists. split; [reflexivity|]. right; left. done.
  - eexists. rewrite <- app_assoc. split; [reflexivity|].
    right; right; left. rewrite calls_app. simpl. eauto.
  - eexists. rewrite <- app_assoc. split; [reflexivity|].
    right; right; right; left. rewrite !calls_app. simpl.
    repeat match goal with H : calls _ = _ |- _ => rewrite H end.
    by rewrite app_nil_r.
  - eexists. rewrite <- app_assoc. split; [reflexivity|].
    right; right; right; right; left. rewrite !calls_app. simpl.
    repeat match goal with H : calls _ = _ |- _ => rewrite H end.
    done.
  - eexists. rewrite <- app_assoc. split; [reflexivity|].
    right; right; right; right; right. rewrite !calls_app. simpl.
    repeat match goal with H : calls _ = _ |- _ => rewrite H end.
    rewrite !app_nil_r. eauto.
Qed.

Lemma completes_exits_0 (s : state) :
  completes w args s -> (script w args s).1 = Exited 0.
Proof.
  intros (Himport & s1 & r & s2 & s3 & s4 & Hc & Hr & Hd & Hs).
  unfold script. rewrite Himport. unfold main, mbind, Py_bind.
  rewrite Hc, Hr, Hd, Hs. reflexivity.
Qed.

Lemma exits_0_completes (s : state) :
  (script w args s).1 = Exited 0 -> completes w args s.
Proof.
  intros H. pose proof (script_runs w args s) as Hrun. rewrite H in Hrun.
  inversion Hrun; subst; split; try assumption.
  - eexists _, _, _, _, _. repeat split; try eassumption.
    match goal with Hs : save args = false |- _ => rewrite Hs end. reflexivity.
  - eexists _, _, _, _, _. repeat split; try eassumption.
    match goal with Hs : save args = true |- _ => rewrite Hs end. simpl. eassumption.
Qed.

Lemma run_events_calls (s : state) :
  exists new, run_events w args s = new /\
    log (script w args s).2 = log s ++ new /\
    let st := run_client (extend s [EConstruct check_args true]) (verbose args) in
    let o := (script w args s).1 in
    let s' := (script w args s).2 in
    ((exists e, o = Raised e /\ new = [] /\ fs s' = fs s /\ w_import_speedtest w = Some e) \/
     (o = Exited 1 /\ calls new = [EConstruct check_args false] /\ fs s' = fs s) \/
     (o = Exited 1 /\ fs s' = fs s /\
      exists c, calls new = EConstruct check_args true :: c /\ In c (aborted_calls st)) \/
     (o = Exited 0 /\ fs s' = fs s /\ save args = false /\
      calls new = EConstruct check_args true :: measurement_calls st) \/
     (o = Exited 0 /\ save args = true /\
      calls new = EConstruct check_args true :: measurement_calls st ++ [EWrite results_file]) \/
     (exists e, o = Raised e /\ fs s' = fs s /\ save args = true /\
      calls new = EConstruct check_args true :: measurement_calls st)).
Proof.
  destruct (script_run_calls s _ _ (script_runs w args s)) as (new & Hlog & Hcases).
  exists new. split; [|split; assumption].
  unfold run_events. rewrite Hlog. by rewrite drop_app_length.
Qed.

(** C6. The exit status of the process is 0 or 1; it is 0 exactly when the
    run completes (the library is imported, the check, the measurement and
    the display return, and the results are saved when [--save] was given);
    it is 1 when the library cannot be imported and whenever a library
    call of the run raises. *)
Theorem exit_status_reflects_run (s : state) :
  (run_status w args s = 0 \/ run_status w args s = 1)%Z /\
  (run_status w args s = 0%Z <-> completes w args s) /\
  (forall e, w_import_speedtest w = Some e -> run_status w args s = 1%Z) /\
  (forall ev, ev ∈ run_events w args s -> failed_call ev = true ->
     run_status w args s = 1%Z).
Proof.
  destruct (run_events_calls s) as (new & Hnew & Hlog & Hcases).
  unfold run_status. cbv zeta in Hcases.
  assert (Hiff : exit_status (script w args s).1 = 0%Z <-> completes w args s).
  { split.
    - intros H0. apply exits_0_completes.
      destruct (script w args s).1 as [[]|e|c] eqn:Ho; simpl in H0; [|done|by subst].
      pose proof (script_runs w args s) as Hrun. rewrite Ho in Hrun. inversion Hrun.
    - intros Hc. by rewrite (completes_exits_0 _ Hc). }
  split; [|split; [exact Hiff|split]].
  - destruct Hcases as [(e & -> & _)|[(-> & _)|[(-> & _)|[(-> & _)|[(-> & _)|(e & -> & _)]]]]];
      simpl; auto.
  - intros e He. unfold script. by rewrite He.
  - intros ev Hin Hfailed. rewrite Hnew in Hin.
    pose proof (elem_of_calls _ _ Hin (failed_call_not_print _ Hfailed)) as Hc.
    destruct Hcases as [(e & -> & -> & _)|[(-> & _)|[(-> & _)|[(_ & _ & _ & Hcalls)|[(_ & _ & Hcalls)|(e & -> & _)]]]]];
      try reflexivity.
    + rewrite Hcalls in Hc. simpl in Hc.
      repeat destruct Hc as [<-|Hc]; try discriminate Hfailed. done.
    + rewrite Hcalls in Hc. simpl in Hc.
      repeat destruct Hc as [<-|Hc]; try discriminate Hfailed. done.
Qed.

Lemma check_failure_event (s : state) (e : pyexc) :
  w_import_speedtest w = None ->
  w_Speedtest w (log s) check_args = Some e ->
  EConstruct check_args false ∈ run_events w args s.
Proof.
  intros Himport He. unfold run_events, script. rewrite Himport.
  unfold main, mbind, Py_bind.
  destruct (check_library_outcomes w s) as [[Hc _]|(e' & line & _ & Hcheck)];
    [congruence|].
  rewrite Hcheck. simpl. rewrite drop_app_length. apply list_elem_of_here.
Qed.

Lemma import_error_events (s : state) (e : pyexc) :
  w_import_speedtest w = Some e -> run_events w args s = [].
Proof.
  intros He. unfold run_events, script. rewrite He. simpl. apply drop_all.
Qed.

(** C10. When the library cannot be imported, or a client cannot be
    constructed, the process ends with a status other than 0, no
    measurement call and no write of the log file is among its events, and
    the files are as they were. *)
Theorem unavailable_library_stops_run (s : state) :
  library_unavailable w args s ->
  run_status w args s <> 0%Z /\
  (forall ev, ev ∈ run_events w args s -> measured_on ev = None /\ is_write ev = false) /\
  run_files w args s = fs s.
Proof.
  intros Hun.
  assert (Hev : (exists e, w_import_speedtest w = Some e) \/
                (exists a, EConstruct a false ∈ run_events w args s)).
  { destruct Hun as [H|[[e He]|H]]; [by left| |by right].
    destruct (w_import_speedtest w) as [e'|] eqn:Himport; [left; by eexists|].
    right. exists check_args. by eapply check_failure_event. }
  clear Hun. unfold run_status, run_files.
  destruct (run_events_calls s) as (new & Hnew & Hlog & Hcases). cbv zeta in Hcases.
  rewrite Hnew in *.
  assert (Hprints : forall ev c, calls new = c -> ev ∈ new ->
            (forall x, In x c -> measured_on x = None /\ is_write x = false) ->
            measured_on ev = None /\ is_write ev = false).
  { intros ev c Hc Hin Hall. destruct (is_print ev) eqn:Hp.
    - by destruct ev.
    - apply Hall. rewrite <- Hc. by apply elem_of_calls. }
  destruct Hcases as [(e & Ho & -> & Hfs & Himport)|[(Ho & Hcalls & Hfs)|[(Ho & Hfs & c & Hcalls & Hc)|Hrest]]].
  - rewrite Ho. split; [done|split; [|done]].
    by intros ev Hin%elem_of_nil.
  - rewrite Ho. split; [done|split; [|done]].
    intros ev Hin. eapply Hprints; [exact Hcalls|exact Hin|].
    intros x Hx. in_cases Hx.
  - rewrite Ho. split; [done|]. split; [|done].
    destruct Hev as [[e He]|[a Ha]].
    { rewrite (import_error_events _ _ He) in Hnew. subst new. discriminate Hcalls. }
    apply elem_of_calls in Ha; [|done]. rewrite Hcalls in Ha.
    intros ev Hin. eapply Hprints; [exact Hcalls|exact Hin|].
    intros x Hx. in_cases Hc; in_cases Ha; in_cases Hx.
  - exfalso. destruct Hev as [[e He]|[a Ha]].
    { rewrite (import_error_events _ _ He) in Hnew. subst new.
      destruct Hrest as [(_ & _ & _ & Hcalls)|[(_ & _ & Hcalls)|(e' & _ & _ & _ & Hcalls)]];
        discriminate Hcalls. }
    apply elem_of_calls in Ha; [|done].
    destruct Hrest as [(_ & _ & _ & Hcalls)|[(_ & _ & Hcalls)|(e' & _ & _ & _ & Hcalls)]];
      rewrite Hcalls in Ha; in_cases Ha.
Qed.

End ScriptProperties.

(** ** The order of the stages *)

Section Order.

Context (w : World).

Lemma measure_events_calls (verbose : bool) (s : state) :
  let st := run_client s verbose in
  let o := (run_speedtest w verbose s).1 in
  (o = Exited 1 /\ In (calls (measure_events w verbose s)) (aborted_calls st)) \/
  (calls (measure_events w verbose s) = measurement_calls st /\
   exists r, o = Ret r /\ reports w st r).
Proof.
  destruct (run_speedtest_outcomes w verbose s) as (o & new & Hrun & Hshape).
  unfold measure_events. rewrite Hrun. cbn [fst snd]. rewrite drop_log. exact Hshape.
Qed.

Ltac split_cases H :=
  lazymatch type of H with
  | [] = ?pre ++ _ :: _ => by destruct pre
  | _ :: _ = ?pre ++ _ :: _ =>
      destruct pre as [|? pre]; simpl in H;
      [ simplify_eq | injection H as ? H; subst; split_cases H ]
  end.

(** Where an upload stands among the calls of a run, a download that
    returned stands before it and nothing but the clock after it. *)
Lemma upload_position (st st' : Speedtest) (b : bool) (c pre post : list event) :
  c = measurement_calls st \/ In c (aborted_calls st) ->
  c = pre ++ EUpload st' b :: post ->
  In (EDownload st' true) pre /\ (post = [] \/ post = [ENow]).
Proof.
  intros Hc Heq.
  destruct Hc as [->|Hc]; [unfold measurement_calls in Heq|in_cases Hc];
    split_cases Heq; simpl; auto 10.
Qed.

Lemma stages_of_calls (st : Speedtest) (c : list event) :
  c = measurement_calls st \/ In c (aborted_calls st) ->
  stages c `prefix_of` all_stages /\
  (stages c = all_stages <-> c = measurement_calls st).
Proof.
  intros [->|Hc]; [|in_cases Hc]; unfold all_stages; cbn; (split; [by eexists|done]).
Qed.

Lemma constructions_of_calls (st : Speedtest) (c : list event) (a : SpeedtestArgs) (b : bool) :
  c = measurement_calls st \/ In c (aborted_calls st) ->
  In (EConstruct a b) c -> secure a = Some true.
Proof.
  intros [->|Hc] Hin; [|in_cases Hc]; in_cases Hin.
Qed.

(** C7. The stages of a run come in the fixed order: selection, download,
    upload, aggregation.  The stages a run goes through are an initial part
    of that sequence, all of it exactly when the run returns its record;
    and before every upload call stands a download call that returned on
    the same client, with no download after it. *)
Theorem stages_run_in_order (verbose : bool) (s : state) :
  stages (measure_events w verbose s) `prefix_of` all_stages /\
  (is_Ret (run_speedtest w verbose s).1 = true <->
     stages (measure_events w verbose s) = all_stages) /\
  (forall pre st b post,
     measure_events w verbose s = pre ++ EUpload st b :: post ->
     EDownload st true ∈ pre /\ forall st' b', EDownload st' b' ∉ post).
Proof.
  pose proof (measure_events_calls verbose s) as Hcases. cbv zeta in Hcases.
  rewrite <- (stages_calls (measure_events w verbose s)).
  assert (Hc : calls (measure_events w verbose s) = measurement_calls (run_client s verbose) \/
               In (calls (measure_events w verbose s)) (aborted_calls (run_client s verbose))).
  { destruct Hcases as [[_ Hc]|[Hc _]]; auto. }
  destruct (stages_of_calls _ _ Hc) as [Hprefix Hall].
  split; [exact Hprefix|split].
  - rewrite Hall. destruct Hcases as [[Ho Hab]|[Hm (r & Ho & _)]]; rewrite Ho; simpl.
    + split; [done|]. intros Hm. rewrite Hm in Hab. in_cases Hab.
    + done.
  - intros pre st b post Hnew.
    assert (Hsplit : calls (measure_events w verbose s) =
                     calls pre ++ EUpload st b :: calls post).
    { rewrite Hnew, calls_app. reflexivity. }
    eapply upload_position in Hsplit as [Hd Hpost]; [|exact Hc].
    split; [by apply calls_elem_of|].
    intros st' b' Hin. apply elem_of_calls in Hin; [|done].
    destruct Hpost as [Hpost|Hpost]; rewrite Hpost in Hin; in_cases Hin.
Qed.

(** C8. The client measurements are made on is constructed with
    [secure=True]: every construction inside [run_speedtest] passes it, and
    every measurement call of a run of the program is made on a client
    constructed that way. *)
Theorem measurement_client_is_secure {num : Type} {J : JsonLib num}
    (args : Args) (s : state) :
  (forall a b, EConstruct a b ∈ measure_events w (verbose args) s ->
     secure a = Some true) /\
  (forall ev st, ev ∈ run_events w args s -> measured_on ev = Some st ->
     secure (st_args st) = Some true /\
     EConstruct (st_args st) true ∈ run_events w args s).
Proof.
  split.
  - intros a b Hin. apply elem_of_calls in Hin; [|done].
    eapply constructions_of_calls; [|exact Hin].
    destruct (measure_events_calls (verbose args) s) as [[_ Hc]|[Hc _]]; eauto.
  - intros ev st Hin Hst.
    destruct (run_events_calls w args s) as (new & Hnew & _ & Hcases). cbv zeta in Hcases.
    rewrite Hnew in *.
    pose proof (elem_of_calls _ _ Hin (measured_on_not_print _ _ Hst)) as Hc.
    assert (Hgoal : forall c, calls new = c ->
              (forall x, In x c -> measured_on x = Some st ->
                 secure (st_args st) = Some true /\ In (EConstruct (st_args st) true) c) ->
              secure (st_args st) = Some true /\ EConstruct (st_args st) true ∈ new).
    { intros c Hcalls Hall. destruct (Hall ev) as [Hs Hcon]; [by rewrite <- Hcalls|done|].
      split; [done|]. apply calls_elem_of. by rewrite Hcalls. }
    destruct Hcases as [(e & _ & -> & _)|[(_ & Hcalls & _)|[(_ & _ & c & Hcalls & Hab)|
      [(_ & _ & _ & Hcalls)|[(_ & _ & Hcalls)|(e & _ & _ & _ & Hcalls)]]]]].
    + by apply elem_of_nil in Hin.
    + rewrite Hcalls in Hc. in_cases Hc; discriminate Hst.
    + eapply Hgoal; [exact Hcalls|]. intros x Hx Hm.
      in_cases Hab; in_cases Hx; simplify_eq/=; auto 10.
    + eapply Hgoal; [exact Hcalls|]. intros x Hx Hm. in_cases Hx; simplify_eq/=; auto 10.
    + eapply Hgoal; [exact Hcalls|]. intros x Hx Hm. in_cases Hx; simplify_eq/=; auto 10.
    + eapply Hgoal; [exact Hcalls|]. intros x Hx Hm. in_cases Hx; simplify_eq/=; auto 10.
Qed.

End Order.

(** ** Throughput *)

Example format_2f_100 : format_2f 100 = "100.00"%string.
Proof. reflexivity. Qed.

Example format_2f_tie_even : format_2f (1 # 8) = "0.12"%string /\ format_2f (3 # 8) = "0.38"%string.
Proof. split; reflexivity. Qed.

Example format_2f_small : format_2f (23456 # 1000) = "23.46"%string /\ format_2f (-1 # 1000) = "-0.00"%string.
Proof. split; reflexivity. Qed.


Lemma Qnum_neg_Qeq (x y : Q) : (x == y)%Q -> (Qnum x <? 0)%Z = (Qnum y <? 0)%Z.
Proof.
  unfold Qeq. intros H.
  destruct (Z.ltb_spec (Qnum x) 0), (Z.ltb_spec (Qnum y) 0); try reflexivity; nia.
Qed.

Lemma hundredths_Qeq (x y : Q) : (x == y)%Q -> hundredths x = hundredths y.
Proof.
  intros H. unfold hundredths. f_equal. apply Qred_complete. by rewrite H.
Qed.

(** [format(x, ".2f")] depends on the number only, not on how the fraction
    is written. *)
Lemma format_2f_Qeq (x y : Q) : (x == y)%Q -> format_2f x = format_2f y.
Proof.
  intros H. unfold format_2f. by rewrite (Qnum_neg_Qeq _ _ H), (hundredths_Qeq _ _ H).
Qed.



(** [format(x, ".2f")] on floats: a tie goes to the even digit (0.125), a
    float just below a tie goes down (the float of 2.675), zero keeps its
    sign, infinities and NaN are named. *)
Example format_float_2f_cases :
  map format_float_2f [0.125; 0x1.5666666666666p+1; -0; infinity; neg_infinity; nan]%float
  = ["0.12"; "2.67"; "-0.00"; "inf"; "-inf"; "nan"]%string.
Proof. vm_compute. reflexivity. Qed.

(** In binary64 the case of the specification is exact: 125,000,000 bytes
    in 10.0 seconds give 100.0, shown as 100.00. *)
Example to_mbps_100 :
  to_mbps (bits_per_second 125000000 10) = 100%float /\
  format_float_2f 100 = "100.00"%string.
Proof. split; reflexivity. Qed.

(** Division in binary64 rounds: 5000.0 / 1000000 is the float next above
    1/200, and shows as 0.01, where the number 1/200 itself, a tie, shows as
    0.00. *)
Example to_mbps_rounds :
  (exists q, float_value (to_mbps 5000) = Some q /\ (1 # 200 < q)%Q) /\
  format_float_2f (to_mbps 5000) = "0.01"%string /\
  format_2f (1 # 200) = "0.00"%string.
Proof.
  split; [|split; vm_compute; reflexivity].
  eexists. split; vm_compute; reflexivity.
Qed.

Section Throughput.

Context (w : World).

Lemma run_speedtest_reports (verbose : bool) (s : state) (r : results_dict) (s' : state) :
  run_speedtest w verbose s = (Ret r, s') -> reports w (run_client s verbose) r.
Proof.
  intros Hrun.
  destruct (run_speedtest_outcomes w verbose s) as (o & new & Hrun' & Hshape).
  rewrite Hrun in Hrun'. injection Hrun' as <- _.
  destruct Hshape as [[Ho _]|(_ & r' & Ho & Hrep)]; [discriminate Ho|].
  by injection Ho as ->.
Qed.


(** Whatever the library measured, the record of a run that returns says
    [0%] for the packet loss: the text of line 79. *)
Lemma packet_loss_is_constant (verbose : bool) (s : state) (r : results_dict) (s' : state) :
  run_speedtest w verbose s = (Ret r, s') ->
  assoc r "packet_loss" = Some packet_loss_placeholder.
Proof.
  intros Hrun. apply run_speedtest_reports in Hrun
    as (hd & hu & hp & bd & bu & ip & isp & country & sn & ts & _ & _ & ->).
  reflexivity.
Qed.

(** The record of a run that returns carries the text of line 78 for the
    jitter. *)
Lemma jitter_is_constant (verbose : bool) (s : state) (r : results_dict) (s' : state) :
  run_speedtest w verbose s = (Ret r, s') ->
  assoc r "jitter" = Some jitter_placeholder.
Proof.
  intros Hrun. apply run_speedtest_reports in Hrun
    as (hd & hu & hp & bd & bu & ip & isp & country & sn & ts & _ & _ & ->).
  reflexivity.
Qed.

End Throughput.

(** ** Placeholders *)

(** C3. The packet loss the run reports is not the loss ratio of the
    probes: in a run whose probes lost one in four, [run_speedtest] returns
    a record whose packet loss is the text [0%] of line 79. *)
Theorem packet_loss_ignores_probes :
  (loss_ratio_of (w_probes lossy_world) == 1 # 4)%Q /\
  exists r s',
    run_speedtest lossy_world false (initial ∅) = (Ret r, s') /\
    assoc r "packet_loss" = Some "0%"%string.
Proof.
  split; [reflexivity|]. eexists _, _. split; [vm_compute; reflexivity|reflexivity].
Qed.

(** C4. The jitter the run reports is not the mean absolute difference of
    consecutive successful round-trip times: in a run whose successful
    probes took 20, 30 and 25 ms (jitter 7.5 ms), [run_speedtest] returns a
    record whose jitter is the text of line 78. *)
Theorem jitter_ignores_probes :
  (jitter_of (w_probes lossy_world) == 15 # 2)%Q /\
  exists r s',
    run_speedtest lossy_world false (initial ∅) = (Ret r, s') /\
    assoc r "jitter" = Some "N/A (approx. 5-20ms variation)"%string.
Proof.
  split; [reflexivity|]. eexists _, _. split; [vm_compute; reflexivity|reflexivity].
Qed.

(** ** The theorems at concrete runs *)

Example sample_run :
  (run_speedtest sample_world false (initial ∅)).1 = Ret sample_results.
Proof. vm_compute. reflexivity. Qed.





Lemma save_results_creates_witness :
  fs (save_results (J := PyJson.json) (pyval_of_results sample_results) results_file (initial ∅)).2
    !! results_file
  = Some (PyJson.dumps (PList [pyval_of_results sample_results])).
Proof.
  destruct (save_results_creates (J := PyJson.json) (pyval_of_results sample_results) results_file (initial ∅)
              PyJsonFacts.loads_dumps) as (_ & H & _); [vm_compute; reflexivity|].
  exact H.
Defined.

Lemma unavailable_library_stops_run_witness :
  run_status (J := PyJson.json) offline_world {| save := true; verbose := false |} (initial ∅) <> 0%Z /\
  run_files (J := PyJson.json) offline_world {| save := true; verbose := false |} (initial ∅) = ∅.
Proof.
  destruct (unavailable_library_stops_run (J := PyJson.json) offline_world
              {| save := true; verbose := false |} (initial ∅)) as (H1 & _ & H3).
  - right. left. eexists. reflexivity.
  - split; [exact H1|exact H3].
Defined.

(** The program in [sample_world] with [--save]: it ends with status 0 and
    leaves a log of one entry. *)
Example sample_script_run :
  run_status (J := PyJson.json) sample_world {| save := true; verbose := true |} (initial ∅) = 0%Z /\
  (PyJson.loads <$> run_files (J := PyJson.json) sample_world {| save := true; verbose := true |}
                      (initial ∅) !! results_file)
  = Some (inr (PList [pyval_of_results sample_results])).
Proof. split; vm_compute; reflexivity. Qed.

(** * More of the script *)

(** ** [save_results] beyond the two cases of the log file *)

Section SaveMore.

Context {num : Type} {J : JsonLib num}.

Lemma save_results_not_list (results : pyval num) (filename text : string)
    (v : pyval num) (s : state) :
  fs s !! filename = Some text ->
  json_loads text = inr v ->
  is_list v = false ->
  exists e, exc_cls e = AttributeError /\ save_results results filename s = (Raised e, s).
Proof.
  intros Hfile Hload Hv. unfold save_results, mbind, Py_bind.
  rewrite (path_exists_true _ _ _ Hfile).
  unfold try_except, json_load_file. rewrite Hfile, Hload. simpl.
  destruct v; try discriminate Hv; simpl; eexists; (split; [|reflexivity]); reflexivity.
Qed.

Lemma save_results_load_error (results : pyval num) (filename text : string)
    (e : pyexc) (s : state) :
  fs s !! filename = Some text ->
  json_loads text = inl e ->
  is_JSONDecodeError e = false ->
  save_results results filename s = (Raised e, s).
Proof.
  intros Hfile Hload He. unfold save_results, mbind, Py_bind.
  rewrite (path_exists_true _ _ _ Hfile).
  unfold try_except, json_load_file. rewrite Hfile, Hload. simpl. rewrite He. reflexivity.
Qed.

(** X1. A log file that holds JSON other than an array stops
    [save_results]: [results_list.append] raises [AttributeError], nothing
    is printed and nothing is written. *)
Theorem save_results_rejects_non_list (results : pyval num) (filename text : string)
    (v : pyval num) (s : state) :
  fs s !! filename = Some text ->
  json_loads text = inr v ->
  is_list v = false ->
  (exists e, exc_cls e = AttributeError /\ (save_results results filename s).1 = Raised e) /\
  (save_results results filename s).2 = s.
Proof.
  intros Hfile Hload Hv.
  destruct (save_results_not_list results _ _ _ _ Hfile Hload Hv) as (e & He & ->).
  split; [by exists e|reflexivity].
Qed.

(** A log that is no use stops the call where it stands. *)
Lemma save_results_unusable (results : pyval num) (filename text : string) (s : state) :
  fs s !! filename = Some text ->
  unusable_log text ->
  exists e, save_results results filename s = (Raised e, s).
Proof.
  intros Hfile [(v & Hload & Hv)|(e & Hload & He)].
  - destruct (save_results_not_list results _ _ _ _ Hfile Hload Hv) as (e & _ & He).
    by exists e.
  - exists e. by apply (save_results_load_error _ _ text).
Qed.

(** X2. Only [JSONDecodeError] counts as a corrupted file: any other
    exception of [json.load] leaves [save_results] as it is, with nothing
    printed, nothing written and the file as it was. *)
Theorem save_results_passes_other_errors (results : pyval num) (filename text : string)
    (e : pyexc) (s : state) :
  fs s !! filename = Some text ->
  json_loads text = inl e ->
  is_JSONDecodeError e = false ->
  (save_results results filename s).1 = Raised e /\
  (save_results results filename s).2 = s.
Proof.
  intros Hfile Hload He. by rewrite (save_results_load_error _ _ _ _ _ Hfile Hload He).
Qed.

(** X3. [save_results] touches one file.  Whatever it is given, every
    other file is as before; when it returns it has written the file once,
    and when it raises it has written nothing and the files are
    unchanged. *)
Theorem save_results_frame (results : pyval num) (filename : string) (s : state) :
  (forall other, other <> filename ->
     fs (save_results results filename s).2 !! other = fs s !! other) /\
  ((save_results results filename s).1 = Ret tt ->
     calls (save_events results filename s) = [EWrite filename]) /\
  ((save_results results filename s).1 <> Ret tt ->
     calls (save_events results filename s) = [] /\
     fs (save_results results filename s).2 = fs s).
Proof.
  unfold save_events.
  destruct (save_results_outcomes results filename s)
    as [(new & l & -> & Hw)|(e & new & -> & Hw)]; simpl.
  - rewrite drop_app_length. split; [|split; [done|]].
    + intros other Hne. by rewrite lookup_insert_ne.
    + intros Hn. by destruct Hn.
  - rewrite drop_app_length. split; [done|split; [discriminate|done]].
Qed.

Lemma save_each_cons (r : pyval num) (rs : list (pyval num)) (filename : string)
    (s : state) :
  save_each (r :: rs) filename s = save_each rs filename (save_results r filename s).2.
Proof. reflexivity. Qed.

(** The log after saving to a file that reads as [old]. *)
Lemma save_each_list (records : list (pyval num)) (filename : string) :
  json_round_trips ->
  forall (s : state) (old : list (pyval num)) (text : string),
    fs s !! filename = Some text ->
    json_loads text = inr (PList old) ->
    records <> [] ->
    fs (save_each records filename s) !! filename
      = Some (json_dumps (PList (old ++ records))) /\
    last (log (save_each records filename s))
      = Some (EPrint (saved_line filename (length old + length records))).
Proof.
  intros Hjson. induction records as [|r rs IH]; intros s old text Hfile Hload Hne;
    [done|].
  rewrite save_each_cons, (save_results_list _ _ _ _ _ Hfile Hload). cbn [snd].
  set (s1 := {| log := _; fs := _ |}).
  destruct rs as [|r' rs'].
  - unfold save_each, s1. simpl. rewrite lookup_insert_eq. split; [reflexivity|].
    rewrite last_app. simpl. by rewrite Nat.add_1_r.
  - destruct (IH s1 (old ++ [r]) (json_dumps (PList (old ++ [r])))) as [Hfs Hlast];
      [apply lookup_insert_eq|apply Hjson|done|].
    rewrite <- app_assoc in Hfs. split; [exact Hfs|].
    rewrite Hlast, length_app. simpl. do 3 f_equal. lia.
Qed.

(** X4. Saving records one call after the other builds the log in order:
    starting with no file, the file ends up holding the JSON text of the
    array of all the records, first saved first, it reads back as that
    array, and the last line printed gives their number as the total. *)
Theorem save_each_builds_log (records : list (pyval num)) (filename : string) (s : state) :
  json_round_trips ->
  fs s !! filename = None ->
  records <> [] ->
  fs (save_each records filename s) !! filename = Some (json_dumps (PList records)) /\
  json_loads (json_dumps (PList records)) = inr (PList records) /\
  last (log (save_each records filename s))
    = Some (EPrint (saved_line filename (length records))).
Proof.
  intros Hjson Hfile Hne. destruct records as [|r rs]; [done|].
  rewrite save_each_cons, (save_results_new _ _ _ Hfile). cbn [snd].
  set (s1 := {| log := _; fs := _ |}).
  destruct rs as [|r' rs'].
  - unfold save_each, s1. simpl. rewrite lookup_insert_eq, last_app. simpl.
    split; [reflexivity|split; [apply Hjson|reflexivity]].
  - destruct (save_each_list (r' :: rs') filename Hjson s1 [r] (json_dumps (PList [r])))
      as [Hfs Hlast]; [apply lookup_insert_eq|apply Hjson|done|].
    split; [exact Hfs|split; [apply Hjson|exact Hlast]].
Qed.

(** What a call of [save_results] that returns has done. *)
Lemma save_results_returns (results : pyval num) (filename : string) (s s' : state) :
  save_results results filename s = (Ret tt, s') ->
  exists old warning,
    fs s' = <[filename := json_dumps (PList (old ++ [results]))]> (fs s) /\
    log s' = log s ++ warning
               ++ [EWrite filename; EPrint (saved_line filename (S (length old)))] /\
    (warning = [] \/ warning = [EPrint (corrupted_warning filename)]) /\
    (fs s !! filename = None -> old = []) /\
    (forall text, fs s !! filename = Some text ->
       json_loads text = inr (PList old) \/
       (old = [] /\ exists e, json_loads text = inl e /\ is_JSONDecodeError e = true)).
Proof.
  intros Hsave.
  destruct (fs s !! filename) as [text|] eqn:Hfile.
  - destruct (json_loads text) as [e|v] eqn:Hload.
    + destruct (is_JSONDecodeError e) eqn:He.
      * rewrite (save_results_corrupted _ _ _ _ _ Hfile Hload He) in Hsave.
        injection Hsave as <-. exists [], [EPrint (corrupted_warning filename)]. simpl.
        split; [done|split; [done|split; [by right|split; [done|]]]].
        intros text' [= <-]. right. split; [done|]. by exists e.
      * by rewrite (save_results_load_error _ _ _ _ _ Hfile Hload He) in Hsave.
    + destruct (is_list v) eqn:Hv.
      * destruct v as [| | | |old|]; try discriminate Hv.
        rewrite (save_results_list _ _ _ _ _ Hfile Hload) in Hsave.
        injection Hsave as <-. exists old, []. simpl.
        split; [done|split; [done|split; [by left|split; [done|]]]].
        intros text' [= <-]. by left.
      * destruct (save_results_not_list results _ _ _ _ Hfile Hload Hv) as (e & _ & He).
        by rewrite He in Hsave.
  - rewrite (save_results_new _ _ _ Hfile) in Hsave.
    injection Hsave as <-. exists [], []. simpl.
    split; [done|split; [done|split; [by left|split; [done|]]]]. intros text' [=].
Qed.

End SaveMore.

(** ** [display_results] on any dictionary *)

(** X5. [display_results] only prints, whatever dictionary it is given:
    it leaves the files alone and makes no call.  It returns exactly when
    the dictionary has all ten keys, after fifteen lines; otherwise it
    raises the [KeyError] of the first key it reads that is missing, after
    the three lines of the header and one line for each key before it. *)
Theorem display_results_outcome (r : results_dict) (s : state) :
  fs (display_results r s).2 = fs s /\
  calls (display_events r s) = [] /\
  match first_missing r with
  | None =>
      (display_results r s).1 = Ret tt /\ length (display_events r s) = 15
  | Some k =>
      (display_results r s).1 = Raised (key_error k) /\
      length (display_events r s) = 3 + present_prefix r display_keys
  end.
Proof.
  unfold display_events, first_missing, display_keys, present_prefix, has_key,
    display_results, results_get, key_error.
  py_unfold. simpl.
  repeat match goal with
         | |- context [assoc r ?k] => destruct (assoc r k) eqn:?; simpl
         end.
  all: rewrite <- ?app_assoc; rewrite ?drop_app_length; simpl; done.
Qed.

(** The title is among the lines of a call that returns. *)
Lemma display_results_title (r : results_dict) (s : state) (prints : list event) :
  display_results r s = (Ret tt, extend s prints) ->
  EPrint results_title ∈ prints.
Proof.
  unfold display_results, results_get, extend. py_unfold. simpl.
  repeat match goal with
         | |- context [assoc r ?k] => destruct (assoc r k) eqn:?; simpl
         end.
  all: intros H; try discriminate H.
  injection H as H. rewrite <- !app_assoc in H. apply app_inv_head in H. subst prints.
  apply list_elem_of_In. simpl. right. left. reflexivity.
Qed.

(** ** [check_library] and [run_speedtest] when something fails *)

Ltac is_in := apply list_elem_of_In; simpl; repeat (first [left; reflexivity|right]).

Ltac not_in := let H := fresh "Hin" in intros H; apply list_elem_of_In in H; in_cases H.

Section MeasureMore.

Context (w : World).

(** X6. When the constructor raises in [check_library], the call exits
    with status 1 after one printed line, and the line does not depend on
    the exception beyond its being an [ImportError] or not: line 27 shows
    the text [{e}] as it is written, not the exception. *)
Theorem check_library_hides_cause (s : state) (e : pyexc) :
  w_Speedtest w (log s) check_args = Some e ->
  check_library w s =
    (Exited 1,
     extend s [EConstruct check_args false;
               EPrint (if is_ImportError e then not_found_line else init_error_line)]).
Proof.
  intros He. unfold check_library, Speedtest_new, extend. py_unfold. simpl.
  rewrite He. simpl. destruct (is_ImportError e); simpl; rewrite <- app_assoc; reflexivity.
Qed.

(** X7. The record a call of [run_speedtest] returns goes through
    [display_results]: its keys are the ten of the dictionary literal, in
    that order, none of the keys [display_results] reads is missing, so
    the display returns from any state; and the call has left the files
    alone. *)
Theorem measured_record_displays (verbose : bool) (s : state) (r : results_dict) (s' : state) :
  run_speedtest w verbose s = (Ret r, s') ->
  fs s' = fs s /\
  map fst r = record_keys /\
  first_missing r = None /\
  forall s2, (display_results r s2).1 = Ret tt.
Proof.
  intros Hrun.
  destruct (run_speedtest_outcomes w verbose s) as (o & new & Hrun' & Hshape).
  rewrite Hrun in Hrun'. injection Hrun' as <- ->.
  destruct Hshape as [[Ho _]|(_ & r' & Ho & Hrep)]; [discriminate Ho|].
  injection Ho as <-.
  destruct Hrep as (hd & hu & hp & bd & bu & ip & isp & country & sn & ts & _ & _ & ->).
  split; [reflexivity|split; [reflexivity|split; [reflexivity|]]].
  intros s2. reflexivity.
Qed.

Ltac destruct_oracle :=
  match goal with
  | |- context [match w_Speedtest w ?h ?a with _ => _ end] =>
      destruct (w_Speedtest w h a) eqn:?
  | |- context [match w_get_best_server w ?h ?a with _ => _ end] =>
      destruct (w_get_best_server w h a) eqn:?
  | |- context [match w_download w ?h ?a with _ => _ end] =>
      destruct (w_download w h a) eqn:?
  | |- context [match w_upload w ?h ?a with _ => _ end] =>
      destruct (w_upload w h a) eqn:?
  | |- context [match @lookup _ _ _ _ ?k ?m with _ => _ end] =>
      destruct (@lookup _ _ _ _ k m) eqn:?
  | |- context [if is_SpeedtestException ?e then _ else _] =>
      destruct (is_SpeedtestException e) eqn:?
  end.

Ltac run_unfold :=
  unfold run_speedtest, Speedtest_new, get_best_server, download, upload,
    results_ping, results_server, config, now_isoformat, getitem, run_args;
  py_unfold.

(* Histories and clients in the hypotheses, written as in the goal. *)
Ltac flatten_hyps :=
  repeat match goal with
         | H : context [length (_ ++ _)] |- _ => rewrite length_app in H; simpl in H
         | H : context [(_ ++ _) ++ _] |- _ => rewrite <- app_assoc in H; simpl in H
         end.

Ltac lookups :=
  repeat match goal with
         | H : ?m !! ?k = _ |- context [?m !! ?k] => rewrite H
         end;
  reflexivity.

Ltac find_cause :=
  first
    [ eapply cause_construct; [reflexivity|simpl; rewrite ?app_nil_r; eassumption]
    | eapply cause_select; [reflexivity|simpl; eassumption]
    | eapply cause_download; [reflexivity|simpl; eassumption]
    | eapply cause_upload; [reflexivity|simpl; eassumption]
    | eapply cause_server_key;
        [reflexivity|reflexivity|simpl; eassumption|unfold missing_server_key; lookups]
    | eapply cause_record_key; [reflexivity|unfold missing_record_key; simpl; lookups] ].

Ltac stops_with e :=
  match goal with
  | |- exists pre e', ?L = _ /\ _ =>
      first
        [ exists (removelast (removelast L)), e;
          unfold error_lines, specific_error_line, unexpected_error_line, tips_line, key_error;
          simpl;
          match goal with H : is_SpeedtestException e = true |- _ => rewrite H end;
          split; [reflexivity|find_cause]
        | exists (removelast L), e;
          unfold error_lines, specific_error_line, unexpected_error_line, tips_line;
          simpl;
          try match goal with H : is_SpeedtestException e = false |- _ => rewrite H end;
          split; [reflexivity|find_cause] ]
  end.

(** X8. No exception leaves [run_speedtest], and it never touches the
    files.  When it does not return it exits with status 1, and the last
    thing it printed reports the exception that stopped it: its events are
    some events [pre] followed by the lines of the handler for an exception
    [e] (line 101 with the message of [e] and the tips of line 102 when [e]
    is a [SpeedtestException], line 105 with its message when it is not),
    where [e] is what stopped the run after [pre]: the exception the last
    call of [pre] raised, as the library answered it from the history up to
    that call, or the [KeyError] of the first subscript that found no entry
    once the calls before it had returned. *)
Theorem run_speedtest_reports_errors (verbose : bool) (s : state) :
  (forall e, (run_speedtest w verbose s).1 <> Raised e) /\
  fs (run_speedtest w verbose s).2 = fs s /\
  (forall c, (run_speedtest w verbose s).1 = Exited c ->
     c = 1%Z /\
     exists pre e,
       measure_events w verbose s = pre ++ error_lines e /\
       cause w verbose (log s) (run_client s verbose) pre e).
Proof.
  unfold measure_events, run_client.
  run_unfold.
  destruct s as [l f]. destruct verbose; simpl.
  all: repeat (destruct_oracle; simpl).
  all: rewrite <- ?app_assoc; rewrite ?drop_app_length; simpl.
  all: (split; [discriminate|split; [reflexivity|]]).
  all: intros c Hc; try discriminate Hc; injection Hc as <-; (split; [reflexivity|]).
  all: flatten_hyps; simplify_eq; rewrite ?length_app; simpl; rewrite ?Nat.add_0_r.
  all: first
    [ match goal with
      | H : _ = Some ?e |- _ => stops_with e
      | H : _ = inl ?e |- _ => stops_with e
      end
    | stops_with (key_error "name")
    | stops_with (key_error "host")
    | stops_with (key_error "client")
    | stops_with (key_error "ip")
    | stops_with (key_error "isp")
    | stops_with (key_error "country") ].
Qed.

(** X9. Only a verbose run reads the name and the host of the server
    [get_best_server] hands back (line 57).  With a library whose client
    can be made and whose best server lacks one of the two keys, the
    verbose run exits with status 1 right after the selection, reporting
    the [KeyError] of the first of the two that is missing, and makes no
    download; the run that is not verbose goes on to the download. *)
Theorem verbose_reads_server_keys (s : state) (server : gmap string string) :
  (forall h, w_Speedtest w h run_args = None) ->
  (forall h st, w_get_best_server w h st = inr server) ->
  server !! "name"%string = None \/ server !! "host"%string = None ->
  (run_speedtest w true s).1 = Exited 1 /\
  calls (measure_events w true s)
    = [EConstruct run_args true; EGetBestServer (run_client s true) true] /\
  last (measure_events w true s)
    = Some (EPrint (unexpected_error_line
                      (key_error (match server !! "name"%string with
                                  | None => "name"
                                  | Some _ => "host"
                                  end)%string))) /\
  (exists b, EDownload (run_client s false) b ∈ measure_events w false s).
Proof.
  intros Hnew Hbest Hkey.
  unfold measure_events, run_client, unexpected_error_line, key_error.
  split; [|split; [|split]].
  - run_unfold. destruct s as [l f]. simpl.
    rewrite (Hnew _ : w_Speedtest w _ {| secure := _ |} = None). simpl.
    rewrite Hbest. simpl.
    destruct (server !! "name"%string) eqn:Hn; simpl;
      [destruct (server !! "host"%string) eqn:Hh; simpl|]; [by destruct Hkey|done..].
  - run_unfold. destruct s as [l f]. simpl.
    rewrite (Hnew _ : w_Speedtest w _ {| secure := _ |} = None). simpl.
    rewrite Hbest. simpl.
    destruct (server !! "name"%string) eqn:Hn; simpl;
      [destruct (server !! "host"%string) eqn:Hh; simpl|]; [by destruct Hkey|..].
    all: rewrite <- ?app_assoc; rewrite drop_app_length; simpl.
    all: rewrite length_app; simpl; reflexivity.
  - run_unfold. destruct s as [l f]. simpl.
    rewrite (Hnew _ : w_Speedtest w _ {| secure := _ |} = None). simpl.
    rewrite Hbest. simpl.
    destruct (server !! "name"%string) eqn:Hn; simpl;
      [destruct (server !! "host"%string) eqn:Hh; simpl|]; [by destruct Hkey|..].
    all: rewrite <- ?app_assoc; rewrite drop_app_length; reflexivity.
  - run_unfold. destruct s as [l f]. simpl.
    rewrite (Hnew _ : w_Speedtest w _ {| secure := _ |} = None). simpl.
    rewrite Hbest. simpl.
    destruct_oracle; simpl.
    + destruct_oracle; simpl; rewrite <- ?app_assoc; rewrite drop_app_length;
        exists false; rewrite Nat.add_0_r; is_in.
    + repeat (destruct_oracle; simpl).
      all: rewrite <- ?app_assoc; rewrite drop_app_length.
      all: exists true; rewrite Nat.add_0_r; is_in.
Qed.

(** X10. A configuration without the client entry (lines 83-85) means no
    record: whatever the library measures, [run_speedtest] exits with
    status 1 and never reads the clock; and when the upload has returned,
    so that both measurements were made, the last line printed reports the
    [KeyError] of the client key. *)
Theorem missing_client_aborts (verbose : bool) (s : state) :
  (forall h st, w_config w h st !! "client"%string = None) ->
  (run_speedtest w verbose s).1 = Exited 1 /\
  ~ ENow ∈ measure_events w verbose s /\
  (EUpload (run_client s verbose) true ∈ measure_events w verbose s ->
   last (measure_events w verbose s)
     = Some (EPrint (unexpected_error_line (key_error "client")))).
Proof.
  intros Hcfg.
  unfold measure_events, run_client, unexpected_error_line, key_error.
  run_unfold. destruct s as [l f]. destruct verbose; simpl.
  all: repeat (first [rewrite Hcfg|destruct_oracle]; simpl).
  all: rewrite <- ?app_assoc; rewrite drop_app_length.
  all: (split; [reflexivity|split; [not_in|]]).
  all: intros Hup; try reflexivity; exfalso; revert Hup; not_in.
Qed.

End MeasureMore.

(** ** [main]: what a run writes *)

Lemma is_write_calls (l : list event) :
  List.filter is_write (calls l) = List.filter is_write l.
Proof.
  unfold calls. induction l as [|ev l IH]; [done|].
  destruct ev; simpl; rewrite ?IH; reflexivity.
Qed.

(** A write between two stretches without one is found in one place. *)
Lemma split_at_write (a b pre post : list event) (f g : string) :
  (forall f', ~ In (EWrite f') a) ->
  (forall f', ~ In (EWrite f') b) ->
  a ++ EWrite g :: b = pre ++ EWrite f :: post ->
  pre = a /\ f = g /\ post = b.
Proof.
  revert pre. induction a as [|x a IH]; intros pre Ha Hb Heq.
  - destruct pre as [|y pre]; simpl in Heq; [by simplify_eq|].
    injection Heq as <- ->. exfalso. apply (Hb f), in_elt.
  - destruct pre as [|y pre]; simpl in Heq.
    + injection Heq as -> _. exfalso. apply (Ha f). by left.
    + injection Heq as <- Heq.
      destruct (IH pre) as (-> & -> & ->); [|done..].
      intros f' Hin. apply (Ha f'). by right.
Qed.

Lemma no_write_calls (l : list event) (f : string) :
  (forall f', ~ In (EWrite f') (calls l)) -> ~ In (EWrite f) l.
Proof.
  intros Hc Hin. apply (Hc f), elem_of_calls; [by apply list_elem_of_In|done].
Qed.

Section MainMore.

Context {num : Type} {J : JsonLib num} (w : World) (args : Args).

(** The files a run leaves: those it found, with the log file replaced
    when the run was asked to save and got there. *)
Lemma run_files_cases (s : state) :
  run_files w args s = fs s \/
  (save args = true /\ run_status w args s = 0%Z /\
   exists l, run_files w args s = <[results_file := json_dumps (PList l)]> (fs s)).
Proof.
  unfold run_files, run_status.
  pose proof (script_runs w args s) as Hrun.
  destruct (script w args s) as [o s'] eqn:Hscript. simpl in *.
  inversion Hrun; subst; try (left; reflexivity).
  right. split; [assumption|split; [reflexivity|]]. by eexists.
Qed.

(** A write among the events of a run is that of the log file, in a run
    with [--save] that ends with status 0. *)
Lemma run_writes (s : state) (f : string) :
  EWrite f ∈ run_events w args s ->
  f = results_file /\ save args = true /\ run_status w args s = 0%Z.
Proof.
  intros Hin.
  destruct (run_events_calls w args s) as (new & Hnew & _ & Hcases). cbv zeta in Hcases.
  rewrite Hnew in Hin. apply elem_of_calls in Hin; [|done].
  unfold run_status.
  destruct Hcases as [(e & _ & -> & _)|[(_ & Hcalls & _)|[(_ & _ & c & Hcalls & Hab)|
    [(_ & _ & _ & Hcalls)|[(Ho & Hs & Hcalls)|(e & _ & _ & _ & Hcalls)]]]]];
    try (rewrite Hcalls in Hin).
  - in_cases Hin.
  - in_cases Hin.
  - in_cases Hab; in_cases Hin.
  - in_cases Hin.
  - rewrite Ho. in_cases Hin.
  - in_cases Hin.
Qed.

(** X11. A run of the program writes nothing but the log file, and that
    at most once: every other file is as the run found it; without
    [--save] all files are; a write among the events of a run is that of
    [speedtest_results.json], in a run with [--save] that ends with
    status 0; and no run has two writes. *)
Theorem main_writes_only_log (s : state) :
  (forall other, other <> results_file ->
     run_files w args s !! other = fs s !! other) /\
  (save args = false -> run_files w args s = fs s) /\
  (forall f, EWrite f ∈ run_events w args s ->
     f = results_file /\ save args = true /\ run_status w args s = 0%Z) /\
  length (List.filter is_write (run_events w args s)) <= 1.
Proof.
  split; [|split; [|split]].
  - intros other Hne. destruct (run_files_cases s) as [->|(_ & _ & l & ->)]; [done|].
    by rewrite lookup_insert_ne.
  - intros Hsave. destruct (run_files_cases s) as [->|(Hs & _)]; [done|congruence].
  - apply run_writes.
  - destruct (run_events_calls w args s) as (new & Hnew & _ & Hcases). cbv zeta in Hcases.
    rewrite Hnew, <- is_write_calls.
    destruct Hcases as [(e & _ & -> & _)|[(_ & Hcalls & _)|[(_ & _ & c & Hcalls & Hab)|
      [(_ & _ & _ & Hcalls)|[(Ho & Hs & Hcalls)|(e & _ & _ & _ & Hcalls)]]]]];
      try (rewrite Hcalls); simpl; try lia.
    in_cases Hab; simpl; lia.
Qed.

(** X12. A log file that is no use fails every run with [--save]: when
    [speedtest_results.json] reads as JSON that is no array, or reading it
    raises something other than [JSONDecodeError], the process ends with
    status 1 whatever the library does, nothing is written and the files
    are as they were. *)
Theorem unusable_log_fails_run (s : state) (text : string) :
  save args = true ->
  fs s !! results_file = Some text ->
  unusable_log text ->
  run_status w args s = 1%Z /\
  run_files w args s = fs s /\
  (forall f, ~ EWrite f ∈ run_events w args s).
Proof.
  intros Hsave Hfile Hlog.
  assert (Hst : run_status w args s = 1%Z).
  { unfold run_status. pose proof (script_runs w args s) as Hrun.
    destruct (script w args s) as [o s'] eqn:Hscript. simpl in *.
    inversion Hrun; subst; try reflexivity; try congruence.
    match goal with
    | H : save_results ?r ?f ?s0 = (Ret tt, _) |- _ =>
        destruct (save_results_unusable r f text s0 Hfile Hlog) as (e & He);
        rewrite He in H; discriminate H
    end. }
  split; [exact Hst|split].
  - destruct (run_files_cases s) as [->|(_ & H0 & _)]; [done|]. rewrite Hst in H0. done.
  - intros f Hin. destruct (run_writes s f Hin) as (_ & _ & H0). rewrite Hst in H0. done.
Qed.


(** X14. The record is shown before it is saved, and the write is the
    last thing a run does but for one line: where a write stands among the
    events of a run, it is the write of [speedtest_results.json], the
    title of the results and the reading of the clock stand before it, and
    after it comes the line with the total and nothing else. *)
Theorem results_shown_before_saved (s : state) (pre post : list event) (f : string) :
  run_events w args s = pre ++ EWrite f :: post ->
  f = results_file /\
  EPrint results_title ∈ pre /\
  ENow ∈ pre /\
  exists total, post = [EPrint (saved_line results_file total)].
Proof.
  intros Hev.
  assert (Hin : EWrite f ∈ run_events w args s).
  { rewrite Hev. apply elem_of_app. right. apply list_elem_of_here. }
  assert (Hc : In (EWrite f) (calls (run_events w args s))) by by apply elem_of_calls.
  revert Hev Hc. unfold run_events.
  pose proof (script_runs w args s) as Hrun.
  destruct (script w args s) as [o s'] eqn:Hscript. cbn [fst snd] in *.
  inversion Hrun as [ | |s1 new Himport Hs1 Hcheck Hmeasure Hcalls
    |s1 new r prints Himport Hs1 Hcheck Hmeasure Hcalls Hrep Hdisp Hprints Hsave
    |s1 new r prints new' l Himport Hs1 Hcheck Hmeasure Hcalls Hrep Hdisp Hprints Hsave Hsaved Hnew'
    |s1 new r prints new' e Himport Hs1 Hcheck Hmeasure Hcalls Hrep Hdisp Hprints Hsave Hsaved Hnew'];
    subst; simpl; rewrite <- ?app_assoc, ?drop_app_length, ?drop_all; simpl.
  - intros _ Hc. in_cases Hc.
  - intros _ Hc. in_cases Hc.
  - intros _ [Hc|Hc]; [discriminate Hc|].
    revert Hc. generalize dependent (calls new). intros c Hcalls Hc.
    in_cases Hcalls; in_cases Hc.
  - intros _ [Hc|Hc]; [discriminate Hc|].
    rewrite !calls_app, Hcalls, Hprints in Hc. in_cases Hc.
  - intros Hev _.
    destruct (save_results_returns _ _ _ _ Hsaved) as (old & warning & _ & Hlog & Hwarn & _).
    simpl in Hlog. rewrite <- !app_assoc in Hlog. simpl in Hlog.
    apply app_inv_head in Hlog. injection Hlog as Hlog.
    do 2 apply app_inv_head in Hlog. subst new'.
    change (EConstruct check_args true :: new ++ prints ++ warning ++
              EWrite results_file :: [EPrint (saved_line results_file (S (length old)))])
      with ((EConstruct check_args true :: new) ++ prints ++ warning ++
              EWrite results_file :: [EPrint (saved_line results_file (S (length old)))]) in Hev.
    rewrite !app_assoc in Hev.
    apply split_at_write in Hev as (-> & -> & ->).
    + split; [done|]. split; [|split; [|by eexists]].
      * apply elem_of_app. left. apply elem_of_app. right.
        eapply display_results_title. rewrite <- extend_extend in Hdisp. exact Hdisp.
      * apply elem_of_app. left. apply elem_of_app. left. apply elem_of_cons. right.
        apply calls_elem_of. rewrite Hcalls. simpl. auto 10.
    + intros f'. apply no_write_calls. intros f'' Hc.
      rewrite !calls_app, Hprints in Hc. simpl in Hc. rewrite Hcalls in Hc.
      rewrite app_nil_r in Hc.
      destruct Hc as [Hc|Hc]; [discriminate Hc|].
      apply in_app_or in Hc as [Hc|Hc]; [in_cases Hc|].
      destruct Hwarn as [-> | ->]; in_cases Hc.
    + intros f' Hc. in_cases Hc.
  - intros _ [Hc|Hc]; [discriminate Hc|].
    rewrite !calls_app, Hcalls, Hprints, Hnew' in Hc. in_cases Hc.
Qed.

End MainMore.

(** ** The further theorems at concrete runs *)

Lemma save_results_rejects_non_list_witness :
  (exists e, exc_cls e = AttributeError /\
     (save_results (J := PyJson.json) (pyval_of_results sample_results) results_file
        (initial {[ results_file := object_log ]})).1 = Raised e) /\
  (save_results (J := PyJson.json) (pyval_of_results sample_results) results_file
     (initial {[ results_file := object_log ]})).2
  = initial {[ results_file := object_log ]}.
Proof.
  apply (save_results_rejects_non_list (J := PyJson.json) (pyval_of_results sample_results)
           results_file object_log (PDict []) (initial {[ results_file := object_log ]})).
  - vm_compute. reflexivity.
  - vm_compute. reflexivity.
  - reflexivity.
Defined.

Lemma save_results_passes_other_errors_witness :
  (save_results (J := unreadable_json) (pyval_of_results sample_results) results_file
     (initial {[ results_file := one_entry_log ]})).1
  = Raised (Exc OtherException "UnicodeDecodeError") /\
  (save_results (J := unreadable_json) (pyval_of_results sample_results) results_file
     (initial {[ results_file := one_entry_log ]})).2
  = initial {[ results_file := one_entry_log ]}.
Proof.
  apply (save_results_passes_other_errors (J := unreadable_json)
           (pyval_of_results sample_results) results_file one_entry_log
           (Exc OtherException "UnicodeDecodeError")
           (initial {[ results_file := one_entry_log ]})).
  - vm_compute. reflexivity.
  - reflexivity.
  - reflexivity.
Defined.

Lemma save_each_builds_log_witness :
  fs (save_each (J := PyJson.json) [earlier_entry; pyval_of_results sample_results]
        results_file (initial ∅)) !! results_file
  = Some (PyJson.dumps (PList [earlier_entry; pyval_of_results sample_results])) /\
  last (log (save_each (J := PyJson.json) [earlier_entry; pyval_of_results sample_results]
               results_file (initial ∅)))
  = Some (EPrint (saved_line results_file 2)).
Proof.
  destruct (save_each_builds_log (J := PyJson.json)
              [earlier_entry; pyval_of_results sample_results] results_file (initial ∅)
              PyJsonFacts.loads_dumps) as (Hfile & _ & Hlast).
  - vm_compute. reflexivity.
  - discriminate.
  - split; [exact Hfile|exact Hlast].
Defined.

Lemma check_library_hides_cause_witness :
  check_library offline_world (initial ∅) =
    (Exited 1, extend (initial ∅) [EConstruct check_args false; EPrint init_error_line]).
Proof.
  apply (check_library_hides_cause offline_world (initial ∅)
           (Exc SpeedtestException "ConfigRetrievalError")).
  reflexivity.
Defined.

Lemma measured_record_displays_witness :
  map fst sample_results = record_keys /\
  forall s2, (display_results sample_results s2).1 = Ret tt.
Proof.
  destruct (measured_record_displays sample_world false (initial ∅) sample_results
              (run_speedtest sample_world false (initial ∅)).2) as (_ & Hkeys & _ & Hshow).
  - vm_compute. reflexivity.
  - split; [exact Hkeys|exact Hshow].
Defined.

Lemma verbose_reads_server_keys_witness :
  (run_speedtest hostless_world true (initial ∅)).1 = Exited 1 /\
  exists b, EDownload (run_client (initial ∅) false) b
              ∈ measure_events hostless_world false (initial ∅).
Proof.
  destruct (verbose_reads_server_keys hostless_world (initial ∅) hostless_server)
    as (Hexit & _ & _ & Hdown).
  - intros h. reflexivity.
  - intros h st. reflexivity.
  - right. vm_compute. reflexivity.
  - split; [exact Hexit|exact Hdown].
Defined.

Lemma missing_client_aborts_witness :
  (run_speedtest clientless_world false (initial ∅)).1 = Exited 1 /\
  ~ ENow ∈ measure_events clientless_world false (initial ∅).
Proof.
  destruct (missing_client_aborts clientless_world false (initial ∅)) as (Hexit & Hnow & _).
  - intros h st. vm_compute. reflexivity.
  - split; [exact Hexit|exact Hnow].
Defined.

Lemma unusable_log_fails_run_witness :
  run_status (J := PyJson.json) sample_world {| save := true; verbose := false |}
    (initial {[ results_file := object_log ]}) = 1%Z /\
  run_files (J := PyJson.json) sample_world {| save := true; verbose := false |}
    (initial {[ results_file := object_log ]}) = {[ results_file := object_log ]}.
Proof.
  destruct (unusable_log_fails_run (J := PyJson.json) sample_world
              {| save := true; verbose := false |}
              (initial {[ results_file := object_log ]}) object_log) as (Hst & Hfiles & _).
  - reflexivity.
  - vm_compute. reflexivity.
  - left. exists (PDict []). split; [vm_compute; reflexivity|reflexivity].
  - split; [exact Hst|exact Hfiles].
Defined.


Lemma results_shown_before_saved_witness :
  EPrint results_title
    ∈ take 26 (run_events (J := PyJson.json) sample_world
                 {| save := true; verbose := false |} (initial ∅)) /\
  exists total,
    drop 27 (run_events (J := PyJson.json) sample_world
               {| save := true; verbose := false |} (initial ∅))
    = [EPrint (saved_line results_file total)].
Proof.
  destruct (results_shown_before_saved (J := PyJson.json) sample_world
              {| save := true; verbose := false |} (initial ∅)
              (take 26 (run_events (J := PyJson.json) sample_world
                          {| save := true; verbose := false |} (initial ∅)))
              (drop 27 (run_events (J := PyJson.json) sample_world
                          {| save := true; verbose := false |} (initial ∅)))
              results_file) as (_ & Htitle & _ & Hpost).
  - vm_compute. reflexivity.
  - split; [exact Htitle|exact Hpost].
Defined.
